(** * Camera framing (GUIOSGPerspectiveChanger) and sample tables (AngleRefs, ErrProbRefs)

    A shallow embedding of
      - src/osgview/GUIOSGPerspectiveChanger.cpp  (centerTo, setViewportFrom),
      - src/utils/shapes/Visual.h                 (AngleRef, AngleRefs),
      - src/utils/shapes/Signal.h                 (ErrProbRef, ErrProbRefs).

    Number models.
      - The camera code computes with [double] vectors.  The module [IEEE]
        is that code in binary64 arithmetic ([PrimFloat]: rounding to
        nearest even, infinities, NaN, signed zeros), with [cos] and [sin]
        of the C library as parameters.  Every statement below on a sum, a
        product or a quotient of the camera code is a statement on [IEEE].
      - The first embedding of the camera code, over the real numbers [R],
        carries the statements that read only the conditions and the
        assignments of the code: which helper direction [centerTo] takes,
        which branch [setViewportFrom] takes and which vectors it stores.
      - The sample tables only compare their [double] keys with [==] and [<].
        These comparisons are modelled with the IEEE 754 binary64 comparisons
        of [PrimFloat], NaN included. *)

From Stdlib Require Import Floats Ascii String.
From Stdlib Require Import Bool List ZArith Lia Sorted Permutation.
From Stdlib Require QArith Qpower Lqa.
From Stdlib Require Import Reals Lra.
Import ListNotations.

Local Open Scope R_scope.

(** ** osg::Vec3d *)

Module Vec3d.

Record t : Type := mk { x : R; y : R; z : R }.

(** [osg::Vec3d()] *)
Definition zero : t := mk 0 0 0.
Definition X_AXIS : t := mk 1 0 0.
Definition Z_AXIS : t := mk 0 0 1.

(** [operator+], binary and unary [operator-] *)
Definition add (a b : t) : t := mk (x a + x b) (y a + y b) (z a + z b).
Definition sub (a b : t) : t := mk (x a - x b) (y a - y b) (z a - z b).
Definition neg (a : t) : t := mk (- x a) (- y a) (- z a).

(** [operator*(double)] *)
Definition scale (a : t) (k : R) : t := mk (x a * k) (y a * k) (z a * k).

(** [operator*(Vec3d)], the dot product, and [operator^], the cross product *)
Definition dot (a b : t) : R := x a * x b + y a * y b + z a * z b.
Definition cross (a b : t) : t :=
  mk (y a * z b - z a * y b)
     (z a * x b - x a * z b)
     (x a * y b - y a * x b).

(** [length()] *)
Definition length (a : t) : R := sqrt (x a * x a + y a * y a + z a * z a).

(** [normalize()]: scales by [1/length] when the length is positive and
    leaves the vector as it is otherwise. *)
Definition normalize (a : t) : t :=
  let norm := length a in
  if Rlt_dec 0 norm then let inv := 1 / norm in scale a inv else a.

(** [v[0] = a], [v[1] = b] *)
Definition set_x (v : t) (a : R) : t := mk a (y v) (z v).
Definition set_y (v : t) (b : R) : t := mk (x v) b (z v).

End Vec3d.

Abbreviation Vec3d := Vec3d.t.
Infix "+v" := Vec3d.add (at level 50, left associativity).
Infix "-v" := Vec3d.sub (at level 50, left associativity).
Infix "*s" := Vec3d.scale (at level 40, left associativity).
Infix "^v" := Vec3d.cross (at level 30, right associativity).

(** Comparisons of [double]s as booleans, for the conditions of the code. *)
Definition Rgtb (a b : R) : bool := if Rgt_dec a b then true else false.
Definition Rgeb (a b : R) : bool := if Rge_dec a b then true else false.
Definition Reqb (a b : R) : bool := if Req_dec_T a b then true else false.

(** ** The view: camera manipulator and projection

    The controller reads the camera through
    [myCameraManipulator->getInverseMatrix().getLookAt(lookFrom, lookAt, up)]
    and writes it through [setByInverseMatrix(makeLookAt(..))] or
    [setHomePosition(..)] followed by [home()].  These belong to the scene
    graph library; the view keeps the pose they exchange (what is written is
    what is read back), the home pose and the projection. *)

Record Pose : Type := mkPose { position : Vec3d; lookAt : Vec3d; up : Vec3d }.

Record Projection : Type :=
  mkProjection { fovy : R; aspectRatio : R; zNear : R; zFar : R }.

Record View : Type :=
  mkView { pose : Pose; homePose : Pose; projection : Projection }.

(** [getInverseMatrix().getLookAt(lookFrom, lookAt, up)] *)
Definition getLookAt (v : View) : Pose := pose v.

(** [m.makeLookAt(lookFrom, lookAt, up); setByInverseMatrix(m)] *)
Definition setByInverseMatrix (p : Pose) (v : View) : View :=
  mkView p (homePose v) (projection v).

(** ** GUIOSGPerspectiveChanger *)

Module GUIOSGPerspectiveChanger.

(** The helper direction of [centerTo], lines 108 to 116. *)
Definition orthoDir (dir : Vec3d) : Vec3d :=
  let orthoDir0 := Vec3d.zero in
  let orthoDir1 :=
    if negb (Reqb (Vec3d.dot dir Vec3d.Z_AXIS) 0) then
      Vec3d.neg Vec3d.X_AXIS
    else
      Vec3d.set_y (Vec3d.set_x orthoDir0 (- Vec3d.y dir)) (Vec3d.x dir) in
  Vec3d.normalize orthoDir1.

(** The condition of the bird view branch of [setViewportFrom], line 148. *)
Definition birdView (dir lookFrom : Vec3d) : bool :=
  (Rgtb (Vec3d.z dir) 0 && Rgeb (Vec3d.z lookFrom) 0) || Reqb (Vec3d.z dir) 0.

Definition setViewportFrom (xPos yPos zPos : R) (v : View) : View :=
  let lookFrom := position (getLookAt v) in
  let lookAt := lookAt (getLookAt v) in
  let up := up (getLookAt v) in
  let dir := lookAt -v lookFrom in
  if birdView dir lookFrom then
    let lookFrom := Vec3d.set_y (Vec3d.set_x lookFrom xPos) yPos in
    let lookAt := lookFrom -v Vec3d.mk 0 0 1 in
    setByInverseMatrix (mkPose lookFrom lookAt up) v
  else
    let shift := Vec3d.zero in
    let factor := - Vec3d.z lookFrom / Vec3d.z dir in
    let groundTarget := lookFrom +v dir *s factor in
    let shift := Vec3d.set_x shift (xPos - Vec3d.x groundTarget) in
    let shift := Vec3d.set_y shift (yPos - Vec3d.y groundTarget) in
    let lookFrom := lookFrom +v shift in
    let lookAt := lookAt +v shift in
    setByInverseMatrix (mkPose lookFrom lookAt up) v.

(** [setViewport(zoom, xPos, yPos)] *)
Definition setViewport (zoom xPos yPos : R) (v : View) : View :=
  setViewportFrom xPos yPos 0 v.

End GUIOSGPerspectiveChanger.

(** ** Sample tables: AngleRefs (Visual.h) and ErrProbRefs (Signal.h)

    The two classes are the same code up to the names of the sample type and
    of its accessors, so their methods are written once, over the sample type
    [entry], its key accessor ([Velocity()] or [Reference()]) and its
    constructor.  The container is the [std::vector] the class derives from.

    [StringTokenizer] and [StringUtils::toDouble] (utils/common) are not
    among the sources: they are parameters.  [tokenize s sep] stands for
    [StringTokenizer(s, sep, true).getVector()], and [toDouble s] is [None]
    where [StringUtils::toDouble(s)] throws. *)

Module SampleTable.
Section Methods.

Variable tokenize : string -> string -> list string.
Variable toDouble : string -> option float.

Variable entry : Type.
Variable key : entry -> float.
Variable make : float -> float -> entry.

(** [exists(velocity)] *)
Fixpoint exists_ (c : list entry) (k : float) : bool :=
  match c with
  | [] => false
  | e :: rest => if (key e =? k)%float then true else exists_ rest k
  end.

(** [compare_asc(x1, x2)] *)
Definition compare_asc (x1 x2 : entry) : bool := (key x1 <? key x2)%float.

(** [sort_asc()]: [std::sort] with [compare_asc], as the insertion sort of
    the standard library's small ranges: the entries are taken from the
    front, and each one goes into the sorted part before the first entry it
    is smaller than.  [std::sort] leaves open the order of entries that
    [compare_asc] does not separate; where the keys are pairwise separated
    every sorting algorithm gives the same container. *)
Fixpoint insert (x : entry) (l : list entry) : list entry :=
  match l with
  | [] => [x]
  | y :: l' => if compare_asc x y then x :: l else y :: insert x l'
  end.

Definition sort_asc (c : list entry) : list entry :=
  fold_left (fun sorted x => insert x sorted) c [].

(** [addSample(data)] *)
Definition addSample (c : list entry) (data : entry) : list entry :=
  let c := if negb (exists_ c (key data)) then c ++ [data] else c in
  sort_asc c.

(** [can_parse(seq)]: the loop over [st0], then the function. *)
Fixpoint can_parse_items (st0 : list string) : bool :=
  match st0 with
  | [] => true
  | s :: rest =>
      let st1 := tokenize s "," in
      if Nat.eqb (List.length st1) 2 then
        match toDouble (nth 0 st1 ""%string) with
        | Some _ =>
            match toDouble (nth 1 st1 ""%string) with
            | Some _ => can_parse_items rest
            | None => false
            end
        | None => false
        end
      else false
  end.

Definition can_parse (seq : string) : bool :=
  can_parse_items (tokenize seq ";").

(** [seq.empty()] *)
Definition empty (seq : string) : bool :=
  match seq with EmptyString => true | String _ _ => false end.

(** What a call leaves behind: it returns with the container [c], or an
    exception of [toDouble] (or an access [st1[i]] past the end) leaves the
    call with the container [c]. *)
Inductive outcome : Type :=
| Done (c : list entry)
| Thrown (c : list entry).

(** [parse(seq)]: the loop over [st0], then the function. *)
Fixpoint parse_items (c : list entry) (st0 : list string) : outcome :=
  match st0 with
  | [] => Done c
  | s :: rest =>
      let st1 := tokenize s "," in
      match nth_error st1 0, nth_error st1 1 with
      | Some s0, Some s1 =>
          match toDouble s0 with
          | Some vec =>
              match toDouble s1 with
              | Some ang => parse_items (addSample c (make vec ang)) rest
              | None => Thrown c
              end
          | None => Thrown c
          end
      | _, _ => Thrown c
      end
  end.

Definition parse (c : list entry) (seq : string) : outcome :=
  if negb (can_parse seq) || empty seq then Done c
  else parse_items [] (tokenize seq ";").

(** A client's calls on one table, from its construction (empty) on. *)
Inductive call : Type :=
| AddSample (data : entry)
| Parse (seq : string).

Fixpoint run (c : list entry) (calls : list call) : outcome :=
  match calls with
  | [] => Done c
  | AddSample data :: rest => run (addSample c data) rest
  | Parse seq :: rest =>
      match parse c seq with
      | Done c' => run c' rest
      | Thrown c' => Thrown c'
      end
  end.

(** The keys a call brings to the table are numbers (not NaN). *)
Definition number (k : float) : bool := negb (PrimFloat.is_nan k).

Definition item_is_number (s : string) : bool :=
  match nth_error (tokenize s ",") 0 with
  | Some s0 => match toDouble s0 with Some k => number k | None => true end
  | None => true
  end.

Definition call_of_numbers (cl : call) : bool :=
  match cl with
  | AddSample data => number (key data)
  | Parse seq => forallb item_is_number (tokenize seq ";")
  end.

(** The container is in strictly ascending order of its keys. *)
Definition ascending (c : list entry) : Prop :=
  StronglySorted (fun a b => (key a <? key b)%float = true) c.

(** No two entries of the container have equal keys. *)
Definition no_equal_keys (c : list entry) : Prop :=
  ForallOrdPairs (fun a b => (key a =? key b)%float = false) c.

(** The invariant of a table fed with numbers. *)
Definition table_ok (c : list entry) : Prop :=
  ascending c /\ Forall (fun e => number (key e) = true) c.

End Methods.

Arguments exists_ {entry} key c k.
Arguments compare_asc {entry} key x1 x2.
Arguments insert {entry} key x l.
Arguments sort_asc {entry} key c.
Arguments addSample {entry} key c data.
Arguments outcome entry : clear implicits.
Arguments Done {entry} c.
Arguments Thrown {entry} c.
Arguments parse_items tokenize toDouble {entry} key make c st0.
Arguments parse tokenize toDouble {entry} key make c seq.
Arguments call entry : clear implicits.
Arguments AddSample {entry} data.
Arguments Parse {entry} seq.
Arguments run tokenize toDouble {entry} key make c calls.
Arguments call_of_numbers tokenize toDouble {entry} key cl.
Arguments ascending {entry} key c.
Arguments no_equal_keys {entry} key c.
Arguments table_ok {entry} key c.

End SampleTable.

Module AngleRefs.

Record AngleRef : Type := mkAngleRef { Velocity : float; Angle : float }.

Definition exists_ := SampleTable.exists_ Velocity.
Definition sort_asc := SampleTable.sort_asc Velocity.
Definition addSample := SampleTable.addSample Velocity.
Definition can_parse := SampleTable.can_parse.
Definition parse tokenize toDouble :=
  SampleTable.parse tokenize toDouble Velocity mkAngleRef.
Definition run tokenize toDouble :=
  SampleTable.run tokenize toDouble Velocity mkAngleRef.
Definition call_of_numbers tokenize toDouble :=
  SampleTable.call_of_numbers tokenize toDouble Velocity.
Definition ascending := SampleTable.ascending Velocity.
Definition no_equal_keys := SampleTable.no_equal_keys Velocity.

End AngleRefs.

Module ErrProbRefs.

Record ErrProbRef : Type :=
  mkErrProbRef { Reference : float; ErrorProbability : float }.

Definition exists_ := SampleTable.exists_ Reference.
Definition sort_asc := SampleTable.sort_asc Reference.
Definition addSample := SampleTable.addSample Reference.
Definition can_parse := SampleTable.can_parse.
Definition parse tokenize toDouble :=
  SampleTable.parse tokenize toDouble Reference mkErrProbRef.
Definition run tokenize toDouble :=
  SampleTable.run tokenize toDouble Reference mkErrProbRef.
Definition call_of_numbers tokenize toDouble :=
  SampleTable.call_of_numbers tokenize toDouble Reference.
Definition ascending := SampleTable.ascending Reference.
Definition no_equal_keys := SampleTable.no_equal_keys Reference.

End ErrProbRefs.

(** ** The quantities the statements name

    [groundTarget] and [shift] are the locals of the second branch of
    [setViewportFrom]. *)

Module Framing.

Import GUIOSGPerspectiveChanger.

Definition groundTarget (p : Pose) : Vec3d :=
  let dir := lookAt p -v position p in
  position p +v dir *s (- Vec3d.z (position p) / Vec3d.z dir).

Definition shift (xPos yPos : R) (p : Pose) : Vec3d :=
  Vec3d.mk (xPos - Vec3d.x (groundTarget p)) (yPos - Vec3d.y (groundTarget p)) 0.

End Framing.

(** ** A tokenizer and a number reader for the examples

    They stand in for the two parameters where a table is run on a concrete
    string; no theorem depends on them.  [tokenize] cuts at every character
    of [token]; [toDouble] reads an unsigned decimal integer or [nan]. *)

Module Example.

Fixpoint is_sep (ch : ascii) (token : string) : bool :=
  match token with
  | EmptyString => false
  | String t token' => if Ascii.eqb ch t then true else is_sep ch token'
  end.

Fixpoint split (token s cur : string) : list string :=
  match s with
  | EmptyString => match cur with EmptyString => [] | _ => [cur] end
  | String ch s' =>
      if is_sep ch token then cur :: split token s' EmptyString
      else split token s' (cur ++ String ch EmptyString)
  end.

Definition tokenize (s token : string) : list string := split token s EmptyString.

Definition digit (ch : ascii) : option Z :=
  let n := Z.of_nat (nat_of_ascii ch) in
  if ((48 <=? n) && (n <=? 57))%Z then Some (n - 48)%Z else None.

Fixpoint digits (s : string) (acc : Z) : option Z :=
  match s with
  | EmptyString => Some acc
  | String ch s' =>
      match digit ch with
      | Some d => digits s' (10 * acc + d)%Z
      | None => None
      end
  end.

Definition toDouble (s : string) : option float :=
  if String.eqb s "nan" then Some PrimFloat.nan
  else if String.eqb s "" then None
  else option_map (fun n => PrimFloat.of_uint63 (Uint63.of_Z n)) (digits s 0%Z).

End Example.

(** The calls of the examples. *)

Module ExampleCalls.

Import SampleTable AngleRefs ErrProbRefs.

Definition angle_calls : list (call AngleRef) :=
  [ Parse "20,2;10,1"; AddSample (mkAngleRef 10 5); AddSample (mkAngleRef 15 3) ].

Definition errprob_calls : list (call ErrProbRef) :=
  [ AddSample (mkErrProbRef 50 1); Parse "7,0;7,1"; AddSample (mkErrProbRef 3 0) ].

End ExampleCalls.

(** ** GUIOSGPerspectiveChanger: the position accessors and the entry points
    that reduce to [setViewportFrom] *)

Module PerspectiveAccessors.

(** [getXPos()], [getYPos()], [getZPos()]: the components of [lookFrom]. *)
Definition getXPos (v : View) : R := Vec3d.x (position (getLookAt v)).
Definition getYPos (v : View) : R := Vec3d.y (position (getLookAt v)).
Definition getZPos (v : View) : R := Vec3d.z (position (getLookAt v)).

End PerspectiveAccessors.

(** ** Sample tables: the interpolated lookup and the output to a string

    [getAngleDEG] (Visual.h) and [getErrProb] (Signal.h) are the same code up
    to the accessors and to the value of the empty table (360.0 and 0.0), and
    so are the two [to_string] pairs; they are written once.  The arithmetic
    is that of IEEE 754 binary64 ([PrimFloat]).  [at(i)] is [None] where
    [std::vector::at] throws [std::out_of_range].  [std::to_string(double)]
    is a parameter. *)

Module SampleQueries.
Section Queries.

Variable entry : Type.
Variable key : entry -> float.
Variable value : entry -> float.
Variable empty_value : float.
Variable double_to_string : float -> string.

(** [this->at(i)] *)
Definition at_ (c : list entry) (i : nat) : option entry := nth_error c i.

(** The loop [for (; i < size(); i++) if (at(i).key >= v) break;]: the
    entries from index [i] on are [c]. *)
Fixpoint first_not_below (c : list entry) (v : float) (i : nat) : nat :=
  match c with
  | [] => i
  | e :: rest =>
      if (v <=? key e)%float then i else first_not_below rest v (S i)
  end.

(** [getAngleDEG(velocityKMH)], [getErrProb(ref)] *)
Definition lookup (c : list entry) (v : float) : option float :=
  match c with
  | [] => Some empty_value
  | _ :: _ =>
      if Nat.eqb (List.length c) 1 then option_map value (at_ c 0)
      else
        let i := first_not_below c v 0 in
        if Nat.eqb i 0 then option_map value (at_ c 0)
        else if Nat.eqb i (List.length c) then option_map value (at_ c (i - 1))
        else
          match at_ c (i - 1), at_ c i with
          | Some lo, Some hi =>
              Some (value lo
                    + (value hi - value lo) / (key hi - key lo)
                      * (v - key lo))%float
          | _, _ => None
          end
  end.

(** [AngleRef::to_string()], [ErrProbRef::to_string()] *)
Definition entry_to_string (e : entry) : string :=
  (double_to_string (key e) ++ "," ++ double_to_string (value e))%string.

(** [AngleRefs::to_string()], [ErrProbRefs::to_string()]: the loop from
    index [i] on, where the entries left are [c], then the function. *)
Fixpoint to_string_from (c : list entry) (i size : nat) : string :=
  match c with
  | [] => EmptyString
  | e :: rest =>
      ((if Nat.eqb i (size - 1) then entry_to_string e
        else entry_to_string e ++ ";")
       ++ to_string_from rest (S i) size)%string
  end.

Definition to_string (c : list entry) : string :=
  to_string_from c 0 (List.length c).

End Queries.

Arguments at_ {entry} c i.
Arguments first_not_below {entry} key c v i.
Arguments lookup {entry} key value empty_value c v.
Arguments entry_to_string {entry} key value double_to_string e.
Arguments to_string_from {entry} key value double_to_string c i size.
Arguments to_string {entry} key value double_to_string c.

End SampleQueries.

Module AngleRefsQueries.

Import AngleRefs.

Definition getAngleDEG : list AngleRef -> float -> option float :=
  SampleQueries.lookup Velocity Angle 360%float.

Definition to_string (double_to_string : float -> string) :
    list AngleRef -> string :=
  SampleQueries.to_string Velocity Angle double_to_string.

End AngleRefsQueries.

Module ErrProbRefsQueries.

Import ErrProbRefs.

Definition getErrProb : list ErrProbRef -> float -> option float :=
  SampleQueries.lookup Reference ErrorProbability 0%float.

Definition to_string (double_to_string : float -> string) :
    list ErrProbRef -> string :=
  SampleQueries.to_string Reference ErrorProbability double_to_string.

End ErrProbRefsQueries.

(** ** The camera code in double precision

    [osg::Vec3d] holds IEEE 754 binary64 numbers, and the controller
    computes with them.  The module [IEEE] is the code with that arithmetic
    ([PrimFloat]: round to nearest even, infinities, NaN, signed zeros),
    every operation rounded on its own (no fused multiply-add); it is the
    embedding behind every statement below in which a sum, a product or a
    quotient matters.  [cos] and [sin] of the C library are parameters. *)

Module IEEE.

Local Open Scope float_scope.

Module Vec3d.

Record t : Type := mk { x : float; y : float; z : float }.

(** [osg::Vec3d()] *)
Definition zero : t := mk 0 0 0.
Definition X_AXIS : t := mk 1 0 0.
Definition Z_AXIS : t := mk 0 0 1.

(** [operator+], binary and unary [operator-] *)
Definition add (a b : t) : t := mk (x a + x b) (y a + y b) (z a + z b).
Definition sub (a b : t) : t := mk (x a - x b) (y a - y b) (z a - z b).
Definition neg (a : t) : t := mk (- x a) (- y a) (- z a).

(** [operator*(double)] and [operator/(double)] *)
Definition scale (a : t) (k : float) : t := mk (x a * k) (y a * k) (z a * k).
Definition div (a : t) (k : float) : t := mk (x a / k) (y a / k) (z a / k).

(** [operator*(Vec3d)], the dot product, and [operator^], the cross product *)
Definition dot (a b : t) : float := x a * x b + y a * y b + z a * z b.
Definition cross (a b : t) : t :=
  mk (y a * z b - z a * y b)
     (z a * x b - x a * z b)
     (x a * y b - y a * x b).

(** [length()] *)
Definition length (a : t) : float :=
  PrimFloat.sqrt (x a * x a + y a * y a + z a * z a).

(** [normalize()] *)
Definition normalize (a : t) : t :=
  let norm := length a in
  if 0 <? norm then let inv := 1 / norm in scale a inv else a.

(** [v[0] = a], [v[1] = b] *)
Definition set_x (v : t) (a : float) : t := mk a (y v) (z v).
Definition set_y (v : t) (b : float) : t := mk (x v) b (z v).

End Vec3d.

Record Pose : Type :=
  mkPose { position : Vec3d.t; lookAt : Vec3d.t; up : Vec3d.t }.

Record Projection : Type :=
  mkProjection { fovy : float; aspectRatio : float; zNear : float; zFar : float }.

Record View : Type :=
  mkView { pose : Pose; homePose : Pose; projection : Projection }.

(** The camera manipulator and the viewer: the view keeps the pose that is
    written and gives it back; [setHomePosition] stores the home pose and
    [home()] makes it the pose. *)
Definition getLookAt (v : View) : Pose := pose v.

Definition setByInverseMatrix (p : Pose) (v : View) : View :=
  mkView p (homePose v) (projection v).

Definition setHomePosition (p : Pose) (v : View) : View :=
  mkView (pose v) p (projection v).

Definition home (v : View) : View :=
  mkView (homePose v) (homePose v) (projection v).

Record Position : Type := mkPosition { px : float; py : float; pz : float }.

(** [M_PI], the double nearest to pi. *)
Definition M_PI : float := 0x1.921fb54442d18p+1.

(** Modelled from the spec: the macro [DEG2RAD] of utils/geom/GeomHelper.h is
    not among the sources; the specification says the half field of view is
    "converted to radians". *)
Definition DEG2RAD (d : float) : float := d * M_PI / 180.

Module GUIOSGPerspectiveChanger.

Section Libm.

Variable cos : float -> float.
Variable sin : float -> float.

(** The helper direction of [centerTo], lines 108 to 116. *)
Definition orthoDir (dir : Vec3d.t) : Vec3d.t :=
  let orthoDir0 := Vec3d.zero in
  let orthoDir1 :=
    if negb (Vec3d.dot dir Vec3d.Z_AXIS =? 0) then
      Vec3d.neg Vec3d.X_AXIS
    else
      Vec3d.set_y (Vec3d.set_x orthoDir0 (- Vec3d.y dir)) (Vec3d.x dir) in
  Vec3d.normalize orthoDir1.

Definition outerFov (dir ortho : Vec3d.t) (halfFovy : float) : Vec3d.t :=
  Vec3d.add (Vec3d.scale dir (cos halfFovy)) (Vec3d.scale ortho (sin halfFovy)).

(** [int sign = (.. > 0) ? 1 : -1], then converted to [double] *)
Definition sign (outer radiusVec dir : Vec3d.t) : float :=
  if 0 <? Vec3d.dot (Vec3d.cross outer radiusVec) (Vec3d.cross outer dir)
  then 1 else -1.

Definition centerTo (pos : Position) (radius : float) (applyZoom : bool)
    (v : View) : View :=
  let lookFrom := position (getLookAt v) in
  let lookAt := lookAt (getLookAt v) in
  let up := up (getLookAt v) in
  let dir := Vec3d.sub lookAt lookFrom in
  let orthoDir := orthoDir dir in
  let center := Vec3d.mk (px pos) (py pos) (pz pos) in
  let leftBorder := Vec3d.add center (Vec3d.scale orthoDir radius) in
  let rightBorder := Vec3d.sub center (Vec3d.scale orthoDir radius) in
  let halfFovy := DEG2RAD (0.5 * fovy (projection v)) in
  let outerFov := outerFov dir orthoDir halfFovy in
  let radiusVec := Vec3d.sub leftBorder center in
  let sign := sign outerFov radiusVec dir in
  let camUpdate :=
    Vec3d.add center
      (Vec3d.div
         (Vec3d.scale (Vec3d.scale dir sign)
                      (Vec3d.length (Vec3d.cross outerFov radiusVec)))
         (Vec3d.length (Vec3d.cross outerFov dir))) in
  home (setHomePosition (mkPose camUpdate center up) v).

End Libm.

(** The condition of the bird view branch of [setViewportFrom], line 148. *)
Definition birdView (dir lookFrom : Vec3d.t) : bool :=
  ((0 <? Vec3d.z dir) && (0 <=? Vec3d.z lookFrom)) || (Vec3d.z dir =? 0).

Definition setViewportFrom (xPos yPos zPos : float) (v : View) : View :=
  let lookFrom := position (getLookAt v) in
  let lookAt := lookAt (getLookAt v) in
  let up := up (getLookAt v) in
  let dir := Vec3d.sub lookAt lookFrom in
  if birdView dir lookFrom then
    let lookFrom := Vec3d.set_y (Vec3d.set_x lookFrom xPos) yPos in
    let lookAt := Vec3d.sub lookFrom (Vec3d.mk 0 0 1) in
    setByInverseMatrix (mkPose lookFrom lookAt up) v
  else
    let shift := Vec3d.zero in
    let factor := - Vec3d.z lookFrom / Vec3d.z dir in
    let groundTarget := Vec3d.add lookFrom (Vec3d.scale dir factor) in
    let shift := Vec3d.set_x shift (xPos - Vec3d.x groundTarget) in
    let shift := Vec3d.set_y shift (yPos - Vec3d.y groundTarget) in
    let lookFrom := Vec3d.add lookFrom shift in
    let lookAt := Vec3d.add lookAt shift in
    setByInverseMatrix (mkPose lookFrom lookAt up) v.

End GUIOSGPerspectiveChanger.

(** A [cos] and a [sin] for the examples: the values of the C library at the
    two arguments the examples use: 1 and 0 at 0, and 0.7071067811865476
    and 0.7071067811865475 at [DEG2RAD 45] = 0.7853981633974483. *)
Module ExampleLibm.

Definition cos (a : float) : float :=
  if a =? 0 then 1
  else if a =? 0x1.921fb54442d18p-1 then 0x1.6a09e667f3bcdp-1
  else PrimFloat.nan.

Definition sin (a : float) : float :=
  if a =? 0 then 0
  else if a =? 0x1.921fb54442d18p-1 then 0x1.6a09e667f3bccp-1
  else PrimFloat.nan.

End ExampleLibm.

End IEEE.

(** ** The exact value of a double, and operations that do not round

    [F2Q f] is the rational number a finite double stands for (0 for an
    infinity or NaN, which [finite] tells apart).  An operation is exact at
    two arguments when arguments and result are finite and the result is
    the rational result: nothing was rounded. *)

Module Exact.

Import QArith.
Local Open Scope Q_scope.

Definition F2Q (f : float) : Q :=
  match Prim2SF f with
  | S754_finite s m e => inject_Z (cond_Zopp s (Zpos m)) * 2 ^ e
  | _ => 0
  end.

Definition finite (f : float) : bool :=
  match Prim2SF f with
  | S754_zero _ | S754_finite _ _ _ => true
  | _ => false
  end.

Definition exact (op : float -> float -> float) (qop : Q -> Q -> Q)
    (a b : float) : bool :=
  finite a && finite b && finite (op a b)
  && Qeq_bool (F2Q (op a b)) (qop (F2Q a) (F2Q b)).

Definition exact_add := exact PrimFloat.add Qplus.
Definition exact_sub := exact PrimFloat.sub Qminus.
Definition exact_mul := exact PrimFloat.mul Qmult.
Definition exact_div := exact PrimFloat.div Qdiv.

End Exact.

(** ** The quantities the statements on the double code name *)

Module IEEEFraming.

Import IEEE IEEE.GUIOSGPerspectiveChanger Exact.

Local Open Scope float_scope.

(** [groundTarget] and [shift], the locals of the second branch of
    [setViewportFrom]. *)
Definition groundTarget (p : Pose) : Vec3d.t :=
  let dir := Vec3d.sub (lookAt p) (position p) in
  Vec3d.add (position p)
            (Vec3d.scale dir (- Vec3d.z (position p) / Vec3d.z dir)).

Definition shift (xPos yPos : float) (p : Pose) : Vec3d.t :=
  Vec3d.mk (xPos - Vec3d.x (groundTarget p)) (yPos - Vec3d.y (groundTarget p)) 0.

(** The operations that compute [shift] round nothing: the three
    differences of [dir], the quotient [factor], the products and sums of
    [groundTarget] and the two differences of [shift]. *)
Definition ground_exact (xPos yPos : float) (p : Pose) : bool :=
  let lookFrom := position p in
  let lookAt := lookAt p in
  let dir := Vec3d.sub lookAt lookFrom in
  let factor := - Vec3d.z lookFrom / Vec3d.z dir in
  exact_sub (Vec3d.x lookAt) (Vec3d.x lookFrom)
  && exact_sub (Vec3d.y lookAt) (Vec3d.y lookFrom)
  && exact_sub (Vec3d.z lookAt) (Vec3d.z lookFrom)
  && exact_div (- Vec3d.z lookFrom) (Vec3d.z dir)
  && exact_mul (Vec3d.x dir) factor
  && exact_mul (Vec3d.y dir) factor
  && exact_add (Vec3d.x lookFrom) (Vec3d.x dir * factor)
  && exact_add (Vec3d.y lookFrom) (Vec3d.y dir * factor)
  && exact_sub xPos (Vec3d.x (groundTarget p))
  && exact_sub yPos (Vec3d.y (groundTarget p)).

(** The six sums [lookFrom += shift] and [lookAt += shift] round nothing. *)
Definition translation_exact (xPos yPos : float) (p : Pose) : bool :=
  let s := shift xPos yPos p in
  exact_add (Vec3d.x (position p)) (Vec3d.x s)
  && exact_add (Vec3d.y (position p)) (Vec3d.y s)
  && exact_add (Vec3d.z (position p)) (Vec3d.z s)
  && exact_add (Vec3d.x (lookAt p)) (Vec3d.x s)
  && exact_add (Vec3d.y (lookAt p)) (Vec3d.y s)
  && exact_add (Vec3d.z (lookAt p)) (Vec3d.z s).

(** No operation of the call [setViewportFrom xPos yPos] at the view [v]
    rounds; the bird view branch has none that matters. *)
Definition call_exact (xPos yPos : float) (v : View) : bool :=
  let p := pose v in
  if birdView (Vec3d.sub (lookAt p) (position p)) (position p) then true
  else ground_exact xPos yPos p && translation_exact xPos yPos p.

(** The exact coordinates of a vector of doubles. *)
Definition qx (a : Vec3d.t) : QArith_base.Q := F2Q (Vec3d.x a).
Definition qy (a : Vec3d.t) : QArith_base.Q := F2Q (Vec3d.y a).
Definition qz (a : Vec3d.t) : QArith_base.Q := F2Q (Vec3d.z a).


(** The helper direction of [centerOnRegion] as the code has it (see C1):
    the fixed axis (-1, 0, 0), with negative zeros, whenever
    [dir * Z_AXIS != 0], and the normalized (-dir.y, dir.x, 0) otherwise. *)
Definition helper_direction (dir : Vec3d.t) : Vec3d.t :=
  if Vec3d.dot dir Vec3d.Z_AXIS =? 0
  then Vec3d.normalize (Vec3d.mk (- Vec3d.y dir) (Vec3d.x dir) 0)
  else Vec3d.mk (-1) (-0) (-0).

Section Libm.

Variable cos : float -> float.
Variable sin : float -> float.

(** outerFOV = dir * cos(halfFOV) + orthoDir * sin(halfFOV) *)
Definition outerFOV (v : View) : Vec3d.t :=
  let dir := Vec3d.sub (lookAt (pose v)) (position (pose v)) in
  let halfFOV := DEG2RAD (0.5 * fovy (projection v)) in
  Vec3d.add (Vec3d.scale dir (cos halfFOV))
            (Vec3d.scale (helper_direction dir) (sin halfFOV)).

(** center + dir * sign * |outerFOV x radiusVec| / |outerFOV x dir|, with
    sign = +1 when (outerFOV x radiusVec) . (outerFOV x dir) > 0 and -1
    otherwise, the operations from left to right. *)
Definition framing_position (center radiusVec : Vec3d.t) (v : View) : Vec3d.t :=
  let dir := Vec3d.sub (lookAt (pose v)) (position (pose v)) in
  let sign :=
    if 0 <? Vec3d.dot (Vec3d.cross (outerFOV v) radiusVec)
                      (Vec3d.cross (outerFOV v) dir)
    then 1 else -1 in
  Vec3d.add center
    (Vec3d.div
       (Vec3d.scale (Vec3d.scale dir sign)
                    (Vec3d.length (Vec3d.cross (outerFOV v) radiusVec)))
       (Vec3d.length (Vec3d.cross (outerFOV v) dir))).


(** The same pose with the radius vector the doubles give:
    radiusVec = (center + orthoDir * radius) - center. *)
Definition centerOnRegion_pose (center : Vec3d.t) (radius : float)
    (v : View) : Pose :=
  let dir := Vec3d.sub (lookAt (pose v)) (position (pose v)) in
  let leftBorder :=
    Vec3d.add center (Vec3d.scale (helper_direction dir) radius) in
  let radiusVec := Vec3d.sub leftBorder center in
  mkPose (framing_position center radiusVec v) center (up (pose v)).

(** The degenerate geometry of [centerOnRegion]: |outerFOV x dir| = 0. *)
Definition degenerate (v : View) : bool :=
  let dir := Vec3d.sub (lookAt (pose v)) (position (pose v)) in
  Vec3d.length (Vec3d.cross (outerFOV v) dir) =? 0.

End Libm.

End IEEEFraming.

(** ** The views of the examples on the double code

    Decimal fractions are written as the doubles a C++ compiler reads them
    as, in hexadecimal. *)

Module IEEEExamples.

Import IEEE.

Local Open Scope float_scope.

Definition view_of (lookFrom lookAt up : Vec3d.t) (fovy : float) : View :=
  mkView (mkPose lookFrom lookAt up) (mkPose lookFrom lookAt up)
         (mkProjection fovy 1 1 100).

(** Integer coordinates: the camera at (3, 4, 10) looks along (1, 0, -2). *)
Definition integer_view : View :=
  view_of (Vec3d.mk 3 4 10) (Vec3d.mk 4 4 8) (Vec3d.mk 0 0 1) 90.

(** The camera at (3, 4, 10) looks straight down. *)
Definition integer_down_view : View :=
  view_of (Vec3d.mk 3 4 10) (Vec3d.mk 3 4 9) (Vec3d.mk 0 1 0) 90.


(** The camera at (0, 0, 3) looks along (0, 1, -5). *)
Definition steep_view : View :=
  view_of (Vec3d.mk 0 0 3) (Vec3d.mk 0 1 (-2)) (Vec3d.mk 0 0 1) 90.

(** The camera at (0.8, 0.4, 10) looks straight down. *)
Definition down_view : View :=
  view_of (Vec3d.mk 0x1.999999999999ap-1 0x1.999999999999ap-2 10)
          (Vec3d.mk 0x1.999999999999ap-1 0x1.999999999999ap-2 9)
          (Vec3d.mk 0 1 0) 90.


Definition flat_view : View :=
  view_of (Vec3d.mk 0 0 10) (Vec3d.mk 0 0 9) (Vec3d.mk 0 1 0) 0.

End IEEEExamples.

(** * Facts *)

(** ** Comparisons and vectors *)

Lemma Rgtb_true (a b : R) : Rgtb a b = true <-> a > b.
Proof. unfold Rgtb; destruct (Rgt_dec a b); split; intros; try easy. Qed.

Lemma Rgeb_true (a b : R) : Rgeb a b = true <-> a >= b.
Proof. unfold Rgeb; destruct (Rge_dec a b); split; intros; try easy. Qed.

Lemma Reqb_true (a b : R) : Reqb a b = true <-> a = b.
Proof. unfold Reqb; destruct (Req_dec_T a b); split; intros; try easy. Qed.

Lemma Reqb_false (a b : R) : Reqb a b = false <-> a <> b.
Proof. unfold Reqb; destruct (Req_dec_T a b); split; intros; try easy. Qed.

Module Vec3dFacts.

Lemma eq_components (a b : Vec3d) :
  Vec3d.x a = Vec3d.x b -> Vec3d.y a = Vec3d.y b -> Vec3d.z a = Vec3d.z b ->
  a = b.
Proof. destruct a, b; simpl; intros; subst; reflexivity. Qed.

Lemma dot_Z_AXIS (a : Vec3d) : Vec3d.dot a Vec3d.Z_AXIS = Vec3d.z a.
Proof. unfold Vec3d.dot; simpl; ring. Qed.

Lemma length_neg_X_AXIS : Vec3d.length (Vec3d.neg Vec3d.X_AXIS) = 1.
Proof.
  unfold Vec3d.length; simpl.
  replace (-(1) * -(1) + - 0 * - 0 + - 0 * - 0) with 1 by ring.
  apply sqrt_1.
Qed.

Lemma normalize_neg_X_AXIS :
  Vec3d.normalize (Vec3d.neg Vec3d.X_AXIS) = Vec3d.mk (-1) 0 0.
Proof.
  unfold Vec3d.normalize. rewrite length_neg_X_AXIS.
  destruct (Rlt_dec 0 1) as [_ | H]; [ | exfalso; lra ].
  apply eq_components; simpl; field.
Qed.

Lemma normalize_unit (a : Vec3d) : Vec3d.length a = 1 -> Vec3d.normalize a = a.
Proof.
  intros H. unfold Vec3d.normalize. rewrite H.
  destruct (Rlt_dec 0 1) as [_ | H']; [ | exfalso; lra ].
  apply eq_components; simpl; field.
Qed.

End Vec3dFacts.

(** ** centerTo and setViewportFrom *)

Module PerspectiveFacts.

Import GUIOSGPerspectiveChanger Framing.

(** The branch of [orthoDir]: the fixed axis whenever the direction has a
    vertical component, the horizontal perpendicular otherwise. *)
Lemma orthoDir_cases (dir : Vec3d) :
  (Vec3d.z dir <> 0 -> orthoDir dir = Vec3d.mk (-1) 0 0) /\
  (Vec3d.z dir = 0 ->
   orthoDir dir = Vec3d.normalize (Vec3d.mk (- Vec3d.y dir) (Vec3d.x dir) 0)).
Proof.
  unfold orthoDir. rewrite Vec3dFacts.dot_Z_AXIS. split; intros H.
  - apply Reqb_false in H. rewrite H. simpl.
    apply Vec3dFacts.normalize_neg_X_AXIS.
  - apply Reqb_true in H. rewrite H. reflexivity.
Qed.

(** C1 (the code at a direction that is oblique, neither vertical nor
    horizontal): for [dir = (1, 0, -1)], which is not parallel to the
    vertical axis, [centerTo] takes the fixed axis [(-1, 0, 0)] as [orthoDir]
    and not the horizontal perpendicular [(-dir.y, dir.x, 0)] normalized,
    which is [(0, 1, 0)]. *)
Theorem orthoDir_oblique_takes_fixed_axis :
  let dir := Vec3d.mk 1 0 (-1) in
  dir ^v Vec3d.Z_AXIS <> Vec3d.zero /\
  orthoDir dir = Vec3d.mk (-1) 0 0 /\
  Vec3d.normalize (Vec3d.mk (- Vec3d.y dir) (Vec3d.x dir) 0) = Vec3d.mk 0 1 0 /\
  orthoDir dir <> Vec3d.normalize (Vec3d.mk (- Vec3d.y dir) (Vec3d.x dir) 0).
Proof.
  intros dir.
  assert (Hn : Vec3d.normalize (Vec3d.mk (- Vec3d.y dir) (Vec3d.x dir) 0)
               = Vec3d.mk 0 1 0).
  { subst dir; simpl. replace (- 0) with 0 by ring.
    apply Vec3dFacts.normalize_unit. unfold Vec3d.length; simpl.
    replace (0 * 0 + 1 * 1 + 0 * 0) with 1 by ring. apply sqrt_1. }
  assert (Ho : orthoDir dir = Vec3d.mk (-1) 0 0).
  { apply orthoDir_cases. subst dir; simpl; lra. }
  repeat split.
  - subst dir; unfold Vec3d.cross, Vec3d.zero; simpl. intros H.
    injection H as _ H _. lra.
  - exact Ho.
  - exact Hn.
  - rewrite Ho, Hn. intros H. injection H as H _. lra.
Qed.


(** The two branches of [setViewportFrom], as equations. *)
Lemma setViewportFrom_bird (xPos yPos zPos : R) (v : View) :
  birdView (lookAt (pose v) -v position (pose v)) (position (pose v)) = true ->
  pose (setViewportFrom xPos yPos zPos v) =
  mkPose (Vec3d.mk xPos yPos (Vec3d.z (position (pose v))))
         (Vec3d.mk xPos yPos (Vec3d.z (position (pose v))) -v Vec3d.mk 0 0 1)
         (up (pose v)).
Proof. intros H. unfold setViewportFrom, getLookAt. rewrite H. reflexivity. Qed.

Lemma setViewportFrom_shift (xPos yPos zPos : R) (v : View) :
  birdView (lookAt (pose v) -v position (pose v)) (position (pose v)) = false ->
  pose (setViewportFrom xPos yPos zPos v) =
  mkPose (position (pose v) +v shift xPos yPos (pose v))
         (lookAt (pose v) +v shift xPos yPos (pose v))
         (up (pose v)).
Proof. intros H. unfold setViewportFrom, getLookAt. rewrite H. reflexivity. Qed.

Lemma birdView_true (dir lookFrom : Vec3d) :
  birdView dir lookFrom = true <->
  (Vec3d.z dir > 0 /\ Vec3d.z lookFrom >= 0) \/ Vec3d.z dir = 0.
Proof.
  unfold birdView.
  rewrite orb_true_iff, andb_true_iff, Rgtb_true, Rgeb_true, Reqb_true.
  reflexivity.
Qed.

(** C3: [setViewportFrom] takes the bird view branch exactly when
    (dir.z > 0 and position.z >= 0) or dir.z == 0; there the new position is
    (x, y, position.z) and the new look-at point is the new position minus
    (0, 0, 1); in every other pose it shifts position and look-at point. *)
Theorem setViewportFrom_bird_view_mode (xPos yPos zPos : R) (v : View) :
  let p := pose v in
  let dir := lookAt p -v position p in
  let p' := pose (setViewportFrom xPos yPos zPos v) in
  (birdView dir (position p) = true <->
   (Vec3d.z dir > 0 /\ Vec3d.z (position p) >= 0) \/ Vec3d.z dir = 0) /\
  ((Vec3d.z dir > 0 /\ Vec3d.z (position p) >= 0) \/ Vec3d.z dir = 0 ->
   position p' = Vec3d.mk xPos yPos (Vec3d.z (position p)) /\
   lookAt p' = position p' -v Vec3d.mk 0 0 1) /\
  (~ ((Vec3d.z dir > 0 /\ Vec3d.z (position p) >= 0) \/ Vec3d.z dir = 0) ->
   position p' = position p +v shift xPos yPos p /\
   lookAt p' = lookAt p +v shift xPos yPos p).
Proof.
  intros p dir p'. split; [ apply birdView_true | ]. split; intros H.
  - apply birdView_true in H. subst p'.
    rewrite (setViewportFrom_bird _ _ _ _ H). simpl. split; reflexivity.
  - assert (Hb : birdView dir (position p) = false).
    { apply not_true_is_false. intros Hb. apply H, birdView_true, Hb. }
    subst p'. rewrite (setViewportFrom_shift _ _ _ _ Hb). simpl.
    split; reflexivity.
Qed.

Lemma setViewportFrom_bird_view_mode_witness :
  let v := mkView (mkPose (Vec3d.mk 0 0 10) (Vec3d.mk 1 0 10) (Vec3d.mk 0 0 1))
                  (mkPose (Vec3d.mk 0 0 10) (Vec3d.mk 1 0 10) (Vec3d.mk 0 0 1))
                  (mkProjection 30 1 1 100) in
  let p' := pose (setViewportFrom 5 7 0 v) in
  position p' = Vec3d.mk 5 7 10 /\ lookAt p' = position p' -v Vec3d.mk 0 0 1.
Proof.
  intros v.
  apply (proj1 (proj2 (setViewportFrom_bird_view_mode 5 7 0 v))).
  right. simpl. lra.
Defined.

End PerspectiveFacts.

(** ** Exact values of doubles

    Comparisons with zero, sums with zero and quotients by zero, read off
    the specification of the binary64 operations ([FloatAxioms]). *)

Module ExactFacts.

Import QArith Qpower Lqa.
Import Exact.
Local Open Scope Q_scope.

Lemma exact_spec op qop a b :
  exact op qop a b = true ->
  finite a = true /\ finite b = true /\ finite (op a b) = true /\
  F2Q (op a b) == qop (F2Q a) (F2Q b).
Proof.
  unfold exact. rewrite !andb_true_iff, Qeq_bool_iff. tauto.
Qed.

Lemma Prim2SF_zero : Prim2SF 0%float = S754_zero false.
Proof. reflexivity. Qed.

Lemma pow2_pos (e : Z) : 0 < 2 ^ e.
Proof. apply Qpower_0_lt. reflexivity. Qed.

Lemma F2Q_finite_pos (m : positive) (e : Z) : 0 < inject_Z (Zpos m) * 2 ^ e.
Proof.
  apply Qmult_lt_0_compat; [ reflexivity | apply pow2_pos ].
Qed.

Lemma F2Q_opp (a : float) : F2Q (- a)%float == - F2Q a.
Proof.
  unfold F2Q. rewrite FloatAxioms.opp_spec.
  destruct (Prim2SF a) as [s | s | | s m e]; simpl; try reflexivity.
  destruct s; simpl;
    change (Z.neg m) with (- Z.pos m)%Z; rewrite inject_Z_opp; ring.
Qed.

Lemma finite_opp (a : float) : finite (- a)%float = finite a.
Proof.
  unfold finite. rewrite FloatAxioms.opp_spec.
  destruct (Prim2SF a); reflexivity.
Qed.

(** Comparisons with zero read the sign of the exact value. *)
Lemma ltb_zero (a : float) :
  finite a = true -> ((0 <? a)%float = true <-> 0 < F2Q a).
Proof.
  unfold finite, F2Q. rewrite FloatAxioms.ltb_spec, Prim2SF_zero.
  destruct (Prim2SF a) as [s | s | | s m e]; try discriminate; intros _.
  - simpl. split; [ discriminate | intros H; inversion H ].
  - pose proof (F2Q_finite_pos m e) as Hp.
    destruct s; simpl; split; intros H; try reflexivity; try discriminate.
    + exfalso. change (Z.neg m) with (- Z.pos m)%Z in H; rewrite inject_Z_opp in H.
      lra.
    + exact Hp.
Qed.

Lemma eqb_zero (a : float) :
  finite a = true -> ((a =? 0)%float = true <-> F2Q a == 0).
Proof.
  unfold finite, F2Q. rewrite FloatAxioms.eqb_spec, Prim2SF_zero.
  destruct (Prim2SF a) as [s | s | | s m e]; try discriminate; intros _.
  - simpl. split; reflexivity.
  - pose proof (F2Q_finite_pos m e) as Hp.
    destruct s; simpl; split; intros H; try discriminate; exfalso.
    + change (Z.neg m) with (- Z.pos m)%Z in H; rewrite inject_Z_opp in H. lra.
    + lra.
Qed.

Lemma leb_zero (a : float) :
  finite a = true -> ((0 <=? a)%float = true <-> 0 <= F2Q a).
Proof.
  unfold finite, F2Q. rewrite FloatAxioms.leb_spec, Prim2SF_zero.
  destruct (Prim2SF a) as [s | s | | s m e]; try discriminate; intros _.
  - simpl. split; [ intros _; lra | reflexivity ].
  - pose proof (F2Q_finite_pos m e) as Hp.
    destruct s; simpl; split; intros H; try reflexivity; try discriminate.
    + exfalso. change (Z.neg m) with (- Z.pos m)%Z in H; rewrite inject_Z_opp in H.
      lra.
    + lra.
Qed.

(** Adding or subtracting the double 0 does not change the value. *)
Lemma add_zero_value (a : float) :
  finite (a + 0)%float = finite a /\ F2Q (a + 0)%float == F2Q a.
Proof.
  unfold finite, F2Q. rewrite FloatAxioms.add_spec, Prim2SF_zero.
  destruct (Prim2SF a) as [[] | [] | | s m e]; simpl; split; reflexivity.
Qed.

Lemma sub_zero_value (a : float) :
  finite (a - 0)%float = finite a /\ F2Q (a - 0)%float == F2Q a.
Proof.
  unfold finite, F2Q. rewrite FloatAxioms.sub_spec, Prim2SF_zero.
  destruct (Prim2SF a) as [[] | [] | | s m e]; simpl; split; reflexivity.
Qed.

(** A quotient by zero is infinite or NaN, and so is whatever it is added
    to. *)
Lemma div_zero_not_finite (a b : float) :
  (b =? 0)%float = true -> finite (a / b)%float = false.
Proof.
  unfold finite. rewrite FloatAxioms.eqb_spec, FloatAxioms.div_spec, Prim2SF_zero.
  destruct (Prim2SF b) as [sb | sb | | sb mb eb];
    destruct (Prim2SF a) as [sa | sa | | sa ma ea]; simpl;
    try discriminate; try reflexivity;
    destruct sb; discriminate.
Qed.

Lemma add_not_finite (a b : float) :
  finite b = false -> finite (a + b)%float = false.
Proof.
  unfold finite. rewrite FloatAxioms.add_spec.
  destruct (Prim2SF b) as [sb | sb | | sb mb eb];
    destruct (Prim2SF a) as [sa | sa | | sa ma ea]; simpl;
    try discriminate; try reflexivity;
    destruct sa, sb; reflexivity.
Qed.

(** The sign tests of the bird view condition do not see a zero added to
    the two heights. *)
Lemma sign_tests_add_zero (a b : float) :
  ((0 <? (a + 0) - (b + 0)) && (0 <=? b + 0)
   || ((a + 0) - (b + 0) =? 0))%float
  = ((0 <? a - b) && (0 <=? b) || (a - b =? 0))%float.
Proof.
  rewrite !FloatAxioms.ltb_spec, !FloatAxioms.leb_spec, !FloatAxioms.eqb_spec,
    !FloatAxioms.sub_spec, !FloatAxioms.add_spec, Prim2SF_zero.
  destruct (Prim2SF a) as [[] | [] | | sa ma ea];
    destruct (Prim2SF b) as [[] | [] | | sb mb eb]; try reflexivity.
Qed.

Lemma F2Q_minus_one : F2Q (-1)%float == - (1).
Proof. vm_compute. reflexivity. Qed.

End ExactFacts.

(** ** setViewportFrom in double precision *)

Module IEEEViewport.

Import QArith Qpower Lqa.
Import IEEE IEEE.GUIOSGPerspectiveChanger Exact ExactFacts IEEEFraming.
Import IEEEExamples.
Local Open Scope Q_scope.

Ltac exact_hyps :=
  repeat match goal with
  | H : _ && _ = true |- _ => apply andb_true_iff in H; destruct H
  | H : exact_add _ _ = true |- _ => apply exact_spec in H; destruct H as (? & ? & ? & ?)
  | H : exact_sub _ _ = true |- _ => apply exact_spec in H; destruct H as (? & ? & ? & ?)
  | H : exact_mul _ _ = true |- _ => apply exact_spec in H; destruct H as (? & ? & ? & ?)
  | H : exact_div _ _ = true |- _ => apply exact_spec in H; destruct H as (? & ? & ? & ?)
  end.

Lemma setViewportFrom_shift_branch (x y z : float) (v : View) :
  birdView (Vec3d.sub (lookAt (pose v)) (position (pose v)))
           (position (pose v)) = false ->
  pose (setViewportFrom x y z v)
  = mkPose (Vec3d.add (position (pose v)) (shift x y (pose v)))
           (Vec3d.add (lookAt (pose v)) (shift x y (pose v)))
           (up (pose v)).
Proof. intros H. unfold setViewportFrom, getLookAt. rewrite H. reflexivity. Qed.

Lemma setViewportFrom_bird_branch (x y z : float) (v : View) :
  birdView (Vec3d.sub (lookAt (pose v)) (position (pose v)))
           (position (pose v)) = true ->
  pose (setViewportFrom x y z v)
  = mkPose (Vec3d.mk x y (Vec3d.z (position (pose v))))
           (Vec3d.mk (x - 0)%float (y - 0)%float
                     (Vec3d.z (position (pose v)) - 1)%float)
           (up (pose v)).
Proof. intros H. unfold setViewportFrom, getLookAt. rewrite H. reflexivity. Qed.



(** What the shifting branch computes, in exact values, when the
    operations that compute the shift do not round. *)
Lemma shift_values (x y : float) (p : Pose) :
  birdView (Vec3d.sub (lookAt p) (position p)) (position p) = false ->
  ground_exact x y p = true ->
  let dx := qx (lookAt p) - qx (position p) in
  let dy := qy (lookAt p) - qy (position p) in
  let dz := qz (lookAt p) - qz (position p) in
  let f := - qz (position p) / dz in
  ~ dz == 0 /\
  qx (shift x y p) == F2Q x - (qx (position p) + dx * f) /\
  qy (shift x y p) == F2Q y - (qy (position p) + dy * f) /\
  qz (shift x y p) == 0.
Proof.
  intros Hb He. destruct p as [[fx fy fz] [ax ay az] u].
  unfold ground_exact, groundTarget in He. cbv zeta in He.
  cbn [position lookAt Vec3d.x Vec3d.y Vec3d.z Vec3d.add Vec3d.sub Vec3d.scale]
    in He.
  unfold shift, groundTarget, qx, qy, qz. cbv zeta.
  cbn [position lookAt Vec3d.x Vec3d.y Vec3d.z Vec3d.add Vec3d.sub Vec3d.scale].
  unfold birdView in Hb.
  cbn [position lookAt Vec3d.x Vec3d.y Vec3d.z Vec3d.sub] in Hb.
  apply orb_false_iff in Hb as [_ Hz].
  exact_hyps.
  assert (Hdz : ~ F2Q az - F2Q fz == 0).
  { intros E. assert (Heq : (az - fz =? 0)%float = true).
    { apply eqb_zero; [ assumption | ].
      match goal with H : F2Q (az - fz)%float == _ |- _ => rewrite H end.
      exact E. }
    rewrite Heq in Hz. discriminate Hz. }
  split; [ exact Hdz | ].
  repeat match goal with
         | H : F2Q (_ - _)%float == _ |- _ => rewrite H; clear H
         | H : F2Q (_ + _)%float == _ |- _ => rewrite H; clear H
         | H : F2Q (_ * _)%float == _ |- _ => rewrite H; clear H
         | H : F2Q (_ / _)%float == _ |- _ => rewrite H; clear H
         end.
  rewrite !F2Q_opp.
  repeat split; try reflexivity.
Qed.


(** The pose the shifting branch leaves, in exact values, when no operation
    of the call rounds. *)
Lemma shifted_pose_values (x y z : float) (v : View) :
  birdView (Vec3d.sub (lookAt (pose v)) (position (pose v)))
           (position (pose v)) = false ->
  ground_exact x y (pose v) = true ->
  translation_exact x y (pose v) = true ->
  let p := pose v in
  let p' := pose (setViewportFrom x y z v) in
  let dx := qx (lookAt p) - qx (position p) in
  let dy := qy (lookAt p) - qy (position p) in
  let dz := qz (lookAt p) - qz (position p) in
  let f := - qz (position p) / dz in
  ~ dz == 0 /\
  qx (position p') == F2Q x - dx * f /\
  qy (position p') == F2Q y - dy * f /\
  qz (position p') == qz (position p) /\
  qx (lookAt p') == F2Q x - dx * f + dx /\
  qy (lookAt p') == F2Q y - dy * f + dy /\
  qz (lookAt p') == qz (lookAt p).
Proof.
  intros Hb Hg Ht p p' dx dy dz f.
  destruct (shift_values x y (pose v) Hb Hg) as (Hdz & Hx & Hy & Hz).
  fold p dx dy dz f in Hdz, Hx, Hy, Hz.
  subst p'. rewrite (setViewportFrom_shift_branch _ _ _ _ Hb). fold p.
  unfold translation_exact in Ht. cbv zeta in Ht. fold p in Ht.
  set (s := shift x y p) in *.
  unfold qx, qy, qz in *.
  cbn [position lookAt up Vec3d.x Vec3d.y Vec3d.z Vec3d.add].
  exact_hyps.
  split; [ exact Hdz | ].
  repeat match goal with
         | H : F2Q (_ + _)%float == _ |- _ => rewrite H; clear H
         end.
  rewrite Hx, Hy, Hz. subst dx dy dz. repeat split; ring.
Qed.



(** C4, for operations that do not round: from a pose that looks straight
    down, dir = (0, 0, -1), at whatever height, when no operation of the
    call rounds, [setViewportFrom x y] gives the position
    (x, y, position.z) and the look-at point (x, y, position.z - 1). *)
Theorem setViewportFrom_looking_down_when_exact (x y z : float) (v : View) :
  Vec3d.sub (lookAt (pose v)) (position (pose v)) = Vec3d.mk 0 0 (-1) ->
  ground_exact x y (pose v) = true ->
  translation_exact x y (pose v) = true ->
  let p' := pose (setViewportFrom x y z v) in
  qx (position p') == F2Q x /\
  qy (position p') == F2Q y /\
  qz (position p') == qz (position (pose v)) /\
  qx (lookAt p') == F2Q x /\
  qy (lookAt p') == F2Q y /\
  qz (lookAt p') == qz (position (pose v)) - 1.
Proof.
  intros Hdir Hg Ht p'.
  assert (Hb : birdView (Vec3d.sub (lookAt (pose v)) (position (pose v)))
                        (position (pose v)) = false).
  { rewrite Hdir. unfold birdView. cbn [Vec3d.z].
    replace (0 <? -1)%float with false by reflexivity.
    replace (-1 =? 0)%float with false by reflexivity. reflexivity. }
  destruct (shifted_pose_values x y z v Hb Hg Ht)
    as (Hdz & Hpx & Hpy & Hpz & Hlx & Hly & Hlz).
  cbv zeta in Hdz, Hpx, Hpy, Hpz, Hlx, Hly, Hlz. fold p' in Hpx, Hpy, Hpz, Hlx, Hly, Hlz.
  assert (Hd : qx (lookAt (pose v)) - qx (position (pose v)) == 0 /\
               qy (lookAt (pose v)) - qy (position (pose v)) == 0 /\
               qz (lookAt (pose v)) - qz (position (pose v)) == - (1)).
  { clear Hdz Hpx Hpy Hpz Hlx Hly Hlz.
    unfold ground_exact in Hg. cbv zeta in Hg.
    destruct (pose v) as [[fx fy fz] [ax ay az] u].
    cbn [position lookAt Vec3d.x Vec3d.y Vec3d.z Vec3d.sub] in Hg, Hdir.
    injection Hdir as Hx Hy Hz.
    unfold qx, qy, qz. cbn [position lookAt Vec3d.x Vec3d.y Vec3d.z].
    apply andb_true_iff in Hg as [Hg _]. apply andb_true_iff in Hg as [Hg _].
    apply andb_true_iff in Hg as [Hg _]. apply andb_true_iff in Hg as [Hg _].
    apply andb_true_iff in Hg as [Hg _]. apply andb_true_iff in Hg as [Hg _].
    apply andb_true_iff in Hg as [Hg _].
    apply andb_true_iff in Hg as [Hg H3]. apply andb_true_iff in Hg as [H1 H2].
    apply exact_spec in H1 as (_ & _ & _ & H1).
    apply exact_spec in H2 as (_ & _ & _ & H2).
    apply exact_spec in H3 as (_ & _ & _ & H3).
    rewrite Hx in H1. rewrite Hy in H2. rewrite Hz in H3.
    rewrite <- H1, <- H2, <- H3.
    split; [ reflexivity | ]. split; [ reflexivity | apply F2Q_minus_one ]. }
  destruct Hd as (Hdx & Hdy & Hdz1).
  rewrite Hdx in Hpx, Hlx. rewrite Hdy in Hpy, Hly.
  repeat split.
  - rewrite Hpx. ring.
  - rewrite Hpy. ring.
  - exact Hpz.
  - rewrite Hlx. ring.
  - rewrite Hly. ring.
  - rewrite Hlz. lra.
Qed.

Lemma birdView_after_shift (x y : float) (p : Pose) :
  birdView
    (Vec3d.sub (Vec3d.add (lookAt p) (shift x y p))
               (Vec3d.add (position p) (shift x y p)))
    (Vec3d.add (position p) (shift x y p))
  = birdView (Vec3d.sub (lookAt p) (position p)) (position p).
Proof.
  unfold birdView, shift.
  cbn [Vec3d.x Vec3d.y Vec3d.z Vec3d.add Vec3d.sub].
  apply sign_tests_add_zero.
Qed.

(** C7, for operations that do not round: when no operation of the two
    calls rounds, [setViewportFrom x y] a second time leaves the position,
    the look-at point and the up vector where the first call put them. *)
Theorem setViewportFrom_twice_when_exact (x y z z' : float) (v : View) :
  call_exact x y v = true ->
  call_exact x y (setViewportFrom x y z v) = true ->
  let p1 := pose (setViewportFrom x y z v) in
  let p2 := pose (setViewportFrom x y z' (setViewportFrom x y z v)) in
  qx (position p2) == qx (position p1) /\
  qy (position p2) == qy (position p1) /\
  qz (position p2) == qz (position p1) /\
  qx (lookAt p2) == qx (lookAt p1) /\
  qy (lookAt p2) == qy (lookAt p1) /\
  qz (lookAt p2) == qz (lookAt p1) /\
  up p2 = up p1.
Proof.
  intros H1 H2 p1 p2.
  set (v1 := setViewportFrom x y z v) in *.
  assert (Hup : up p2 = up p1).
  { subst p1 p2. unfold setViewportFrom at 1.
    destruct (birdView _ _); reflexivity. }
  unfold call_exact in H1, H2. cbv zeta in H1, H2.
  destruct (birdView (Vec3d.sub (lookAt (pose v1)) (position (pose v1)))
                     (position (pose v1))) eqn:Hb1.
  - (* the second call takes the bird view branch *)
    assert (Hb : birdView (Vec3d.sub (lookAt (pose v)) (position (pose v)))
                          (position (pose v)) = true).
    { destruct (birdView (Vec3d.sub (lookAt (pose v)) (position (pose v)))
                         (position (pose v))) eqn:Hb; [ reflexivity | ].
      subst v1. rewrite (setViewportFrom_shift_branch _ _ _ _ Hb) in Hb1.
      cbn [position lookAt] in Hb1. rewrite birdView_after_shift in Hb1.
      rewrite Hb in Hb1. discriminate Hb1. }
    subst p1 p2. rewrite (setViewportFrom_bird_branch _ _ _ _ Hb1).
    subst v1. rewrite (setViewportFrom_bird_branch _ _ _ _ Hb).
    cbn [position lookAt up Vec3d.x Vec3d.y Vec3d.z].
    repeat split; reflexivity.
  - (* the second call takes the shifting branch *)
    apply andb_true_iff in H2 as [Hg2 Ht2].
    destruct (shifted_pose_values x y z' v1 Hb1 Hg2 Ht2)
      as (Hdz & Hpx & Hpy & Hpz & Hlx & Hly & Hlz).
    cbv zeta in Hdz, Hpx, Hpy, Hpz, Hlx, Hly, Hlz.
    fold p1 p2 in Hdz, Hpx, Hpy, Hpz, Hlx, Hly, Hlz.
    assert (Hg : qx (position p1)
                 + (qx (lookAt p1) - qx (position p1))
                   * (- qz (position p1) / (qz (lookAt p1) - qz (position p1)))
                 == F2Q x /\
                 qy (position p1)
                 + (qy (lookAt p1) - qy (position p1))
                   * (- qz (position p1) / (qz (lookAt p1) - qz (position p1)))
                 == F2Q y).
    { destruct (birdView (Vec3d.sub (lookAt (pose v)) (position (pose v)))
                         (position (pose v))) eqn:Hb.
      - (* first the bird view: the camera looks straight down *)
        subst p1 v1. rewrite (setViewportFrom_bird_branch _ _ _ _ Hb).
        unfold qx, qy, qz. cbn [position lookAt Vec3d.x Vec3d.y Vec3d.z].
        rewrite (proj2 (sub_zero_value x)), (proj2 (sub_zero_value y)). split; ring.
      - (* first the shift *)
        apply andb_true_iff in H1 as [Hg1 Ht1].
        destruct (shifted_pose_values x y z v Hb Hg1 Ht1)
          as (Hdz0 & Hpx0 & Hpy0 & Hpz0 & Hlx0 & Hly0 & Hlz0).
        cbv zeta in Hdz0, Hpx0, Hpy0, Hpz0, Hlx0, Hly0, Hlz0.
        fold v1 in Hpx0, Hpy0, Hpz0, Hlx0, Hly0, Hlz0.
        fold p1 in Hpx0, Hpy0, Hpz0, Hlx0, Hly0, Hlz0.
        rewrite Hpx0, Hpy0, Hpz0, Hlx0, Hly0, Hlz0.
        split; field; exact Hdz0. }
    destruct Hg as [Hgx Hgy].
    repeat split; try exact Hup; try assumption.
    + rewrite Hpx. rewrite <- Hgx at 1. ring.
    + rewrite Hpy. rewrite <- Hgy at 1. ring.
    + rewrite Hlx. rewrite <- Hgx at 1. ring.
    + rewrite Hly. rewrite <- Hgy at 1. ring.
Qed.


(** *** The claims at concrete poses *)





Lemma setViewportFrom_looking_down_when_exact_witness :
  let p' := pose (setViewportFrom 5 7 0 integer_down_view) in
  qx (position p') == F2Q 5 /\
  qy (position p') == F2Q 7 /\
  qz (position p') == qz (position (pose integer_down_view)) /\
  qx (lookAt p') == F2Q 5 /\
  qy (lookAt p') == F2Q 7 /\
  qz (lookAt p') == qz (position (pose integer_down_view)) - 1.
Proof.
  apply (setViewportFrom_looking_down_when_exact 5 7 0 integer_down_view);
    vm_compute; reflexivity.
Defined.

(** C4 in doubles: from the camera at (0.8, 0.4, 10) that looks straight
    down, dir = (0, 0, -1), [setViewportFrom 0.3 0.1] gives the position
    (0.30000000000000004, 0.09999999999999998, 10), which is not
    (0.3, 0.1, 10), and the look-at point
    (0.30000000000000004, 0.09999999999999998, 9). *)
Lemma setViewportFrom_looking_down_rounds :
  let p := pose down_view in
  let x := 0x1.3333333333333p-2%float in
  let y := 0x1.999999999999ap-4%float in
  let p' := pose (setViewportFrom x y 0 down_view) in
  Vec3d.sub (lookAt p) (position p) = Vec3d.mk 0 0 (-1) /\
  (0 <=? Vec3d.z (position p))%float = true /\
  position p' = Vec3d.mk 0x1.3333333333334p-2 0x1.9999999999998p-4 10 /\
  lookAt p' = Vec3d.mk 0x1.3333333333334p-2 0x1.9999999999998p-4 9 /\
  position p' <> Vec3d.mk x y (Vec3d.z (position p)) /\
  lookAt p' <> Vec3d.mk x y (Vec3d.z (position p) - 1)%float.
Proof.
  cbv zeta. split; [ vm_compute; reflexivity | ].
  split; [ vm_compute; reflexivity | ]. split; [ vm_compute; reflexivity | ].
  split; [ vm_compute; reflexivity | ].
  split; intros H;
    apply (f_equal (fun a => (Vec3d.x a =? 0x1.3333333333333p-2)%float)) in H;
    vm_compute in H; discriminate H.
Qed.

Lemma setViewportFrom_twice_when_exact_witness :
  let p1 := pose (setViewportFrom 5 7 0 integer_view) in
  let p2 := pose (setViewportFrom 5 7 0 (setViewportFrom 5 7 0 integer_view)) in
  qx (position p2) == qx (position p1) /\
  qy (position p2) == qy (position p1) /\
  qz (position p2) == qz (position p1) /\
  qx (lookAt p2) == qx (lookAt p1) /\
  qy (lookAt p2) == qy (lookAt p1) /\
  qz (lookAt p2) == qz (lookAt p1) /\
  up p2 = up p1.
Proof.
  apply (setViewportFrom_twice_when_exact 5 7 0 0 integer_view);
    vm_compute; reflexivity.
Defined.

(** C7 in doubles: from the camera at (0, 0, 3) that looks along
    (0, 1, -5), the first [setViewportFrom 0 1] leaves the position
    (0, 0.4, 3) and the look-at point (0, 1.4, -2); the second one moves the
    position to (0, 0.40000000000000013, 3) and leaves the look-at point. *)
Lemma setViewportFrom_second_call_moves :
  let v1 := setViewportFrom 0 1 0 steep_view in
  let v2 := setViewportFrom 0 1 0 v1 in
  position (pose v1) = Vec3d.mk 0 0x1.999999999999ap-2 3 /\
  lookAt (pose v1) = Vec3d.mk 0 0x1.6666666666666p+0 (-2) /\
  position (pose v2) = Vec3d.mk 0 0x1.999999999999cp-2 3 /\
  lookAt (pose v2) = Vec3d.mk 0 0x1.6666666666666p+0 (-2) /\
  position (pose v2) <> position (pose v1) /\
  pose v2 <> pose v1.
Proof.
  cbv zeta. split; [ vm_compute; reflexivity | ].
  split; [ vm_compute; reflexivity | ]. split; [ vm_compute; reflexivity | ].
  split; [ vm_compute; reflexivity | ].
  split; intros H.
  - apply (f_equal (fun a => (Vec3d.y a =? 0x1.999999999999ap-2)%float)) in H.
    vm_compute in H. discriminate H.
  - apply (f_equal
             (fun p => (Vec3d.y (position p) =? 0x1.999999999999ap-2)%float))
      in H.
    vm_compute in H. discriminate H.
Qed.

End IEEEViewport.

(** ** centerTo in double precision *)

Module IEEECenterTo.

Import IEEE IEEE.GUIOSGPerspectiveChanger Exact ExactFacts IEEEFraming.
Import IEEEExamples.
Local Open Scope float_scope.

Lemma orthoDir_helper_direction (dir : Vec3d.t) :
  orthoDir dir = helper_direction dir.
Proof.
  unfold orthoDir, helper_direction.
  destruct (Vec3d.dot dir Vec3d.Z_AXIS =? 0); cbn [negb].
  - reflexivity.
  - vm_compute. reflexivity.
Qed.

Lemma centerTo_applies (cos sin : float -> float) (pos : Position)
    (radius : float) (applyZoom : bool) (v : View) :
  pose (centerTo cos sin pos radius applyZoom v)
  = centerOnRegion_pose cos sin (Vec3d.mk (px pos) (py pos) (pz pos)) radius v.
Proof.
  unfold centerTo, centerOnRegion_pose, framing_position, outerFOV, outerFov,
    sign, getLookAt, home, setHomePosition.
  cbn [pose homePose]. rewrite orthoDir_helper_direction. reflexivity.
Qed.



(** C8 in doubles: when |outerFOV x dir| = 0, [centerTo] still applies a
    new pose: its look-at point is center, its up vector is the current up
    vector, and no coordinate of its position is a finite number (each is a
    quotient by zero added to a coordinate of center); the pose of a camera
    whose position has a finite first coordinate is therefore not kept. *)
Theorem centerTo_degenerate_applies_undefined_pose
    (cos sin : float -> float) (pos : Position) (radius : float)
    (applyZoom : bool) (v : View) :
  degenerate cos sin v = true ->
  let p' := pose (centerTo cos sin pos radius applyZoom v) in
  lookAt p' = Vec3d.mk (px pos) (py pos) (pz pos) /\
  up p' = up (pose v) /\
  finite (Vec3d.x (position p')) = false /\
  finite (Vec3d.y (position p')) = false /\
  finite (Vec3d.z (position p')) = false /\
  (finite (Vec3d.x (position (pose v))) = true -> p' <> pose v).
Proof.
  intros Hd p'. subst p'. rewrite centerTo_applies.
  unfold degenerate in Hd. cbv zeta in Hd.
  assert (Hx : finite (Vec3d.x (position
                 (centerOnRegion_pose cos sin
                    (Vec3d.mk (px pos) (py pos) (pz pos)) radius v))) = false).
  { unfold centerOnRegion_pose, framing_position.
    cbn [position Vec3d.x Vec3d.add Vec3d.div].
    apply add_not_finite, div_zero_not_finite, Hd. }
  split; [ reflexivity | ]. split; [ reflexivity | ].
  split; [ exact Hx | ].
  split; [ | split ].
  - unfold centerOnRegion_pose, framing_position.
    cbn [position Vec3d.y Vec3d.add Vec3d.div].
    apply add_not_finite, div_zero_not_finite, Hd.
  - unfold centerOnRegion_pose, framing_position.
    cbn [position Vec3d.z Vec3d.add Vec3d.div].
    apply add_not_finite, div_zero_not_finite, Hd.
  - intros Hfin Heq. rewrite Heq in Hx. rewrite Hx in Hfin. discriminate Hfin.
Qed.

Lemma centerTo_degenerate_applies_undefined_pose_witness :
  let p' := pose (centerTo ExampleLibm.cos ExampleLibm.sin (mkPosition 5 5 0)
                           1 false flat_view) in
  lookAt p' = Vec3d.mk 5 5 0 /\
  up p' = up (pose flat_view) /\
  finite (Vec3d.x (position p')) = false /\
  finite (Vec3d.y (position p')) = false /\
  finite (Vec3d.z (position p')) = false /\
  (finite (Vec3d.x (position (pose flat_view))) = true -> p' <> pose flat_view).
Proof.
  apply (centerTo_degenerate_applies_undefined_pose
           ExampleLibm.cos ExampleLibm.sin (mkPosition 5 5 0) 1 false flat_view).
  vm_compute. reflexivity.
Defined.

(** C8 as claimed: with a field of view of zero the geometry is degenerate,
    |outerFOV x dir| = 0, and [centerTo] on the centre (5, 5, 0) with
    radius 1 takes the camera from (0, 0, 10) -> (0, 0, 9) to the position
    (NaN, NaN, infinity) and the look-at point (5, 5, 0). *)
Lemma centerTo_degenerate_moves_camera :
  let v' := centerTo ExampleLibm.cos ExampleLibm.sin (mkPosition 5 5 0)
                     1 false flat_view in
  degenerate ExampleLibm.cos ExampleLibm.sin flat_view = true /\
  position (pose flat_view) = Vec3d.mk 0 0 10 /\
  lookAt (pose flat_view) = Vec3d.mk 0 0 9 /\
  position (pose v') = Vec3d.mk nan nan infinity /\
  lookAt (pose v') = Vec3d.mk 5 5 0 /\
  pose v' <> pose flat_view.
Proof.
  cbv zeta. split; [ vm_compute; reflexivity | ].
  split; [ reflexivity | ]. split; [ reflexivity | ].
  split; [ vm_compute; reflexivity | ]. split; [ vm_compute; reflexivity | ].
  intros H.
  apply (f_equal (fun p => (Vec3d.x (lookAt p) =? 5)%float)) in H.
  vm_compute in H. discriminate H.
Qed.

End IEEECenterTo.

(** ** Comparing doubles

    The order of [SFcompare] on the values that are not NaN. *)

Module SpecFloatOrder.

Ltac cmp_cases :=
  repeat match goal with
  | |- context [Z.compare ?a ?b] =>
      destruct (Z.compare_spec a b); try discriminate; try reflexivity
  | |- context [Pos.compare_cont Eq ?a ?b] =>
      change (Pos.compare_cont Eq a b) with (Pos.compare a b);
      destruct (Pos.compare_spec a b); try discriminate; try reflexivity
  end; simpl; intros; subst; try discriminate; try reflexivity; try lia.

Lemma SFltb_trans (a b c : spec_float) :
  SFltb a b = true -> SFltb b c = true -> SFltb a c = true.
Proof.
  unfold SFltb, SFcompare.
  destruct a as [[] | [] | | [] ma ea], b as [[] | [] | | [] mb eb],
           c as [[] | [] | | [] mc ec];
    try discriminate; try reflexivity; cmp_cases.
Qed.

Lemma SFltb_SFeqb (a b : spec_float) : SFltb a b = true -> SFeqb a b = false.
Proof.
  unfold SFltb, SFeqb. destruct (SFcompare a b) as [[] | ]; easy.
Qed.

Lemma SFeqb_sym (a b : spec_float) : SFeqb a b = SFeqb b a.
Proof.
  unfold SFeqb, SFcompare.
  destruct a as [[] | [] | | [] ma ea], b as [[] | [] | | [] mb eb];
    try reflexivity; cmp_cases.
Qed.

Lemma SFcompare_total (a b : spec_float) :
  SFeqb a a = true -> SFeqb b b = true ->
  SFltb a b = true \/ SFeqb a b = true \/ SFltb b a = true.
Proof.
  unfold SFltb, SFeqb, SFcompare.
  destruct a as [[] | [] | | [] ma ea], b as [[] | [] | | [] mb eb];
    try discriminate; intros _ _; auto;
    destruct (Z.compare_spec ea eb), (Z.compare_spec eb ea); try lia; auto;
    change (Pos.compare_cont Eq ma mb) with (Pos.compare ma mb);
    change (Pos.compare_cont Eq mb ma) with (Pos.compare mb ma);
    destruct (Pos.compare_spec ma mb), (Pos.compare_spec mb ma); try lia; simpl; auto.
Qed.

Lemma SFltb_asym (a b : spec_float) : SFltb a b = true -> SFltb b a = false.
Proof.
  unfold SFltb, SFcompare.
  destruct a as [[] | [] | | [] ma ea], b as [[] | [] | | [] mb eb];
    try discriminate; try reflexivity;
    destruct (Z.compare_spec ea eb), (Z.compare_spec eb ea);
    try lia; try discriminate; try reflexivity;
    change (Pos.compare_cont Eq ma mb) with (Pos.compare ma mb);
    change (Pos.compare_cont Eq mb ma) with (Pos.compare mb ma);
    destruct (Pos.compare_spec ma mb), (Pos.compare_spec mb ma);
    try lia; simpl; try discriminate; reflexivity.
Qed.

End SpecFloatOrder.

Module DoubleFacts.

Lemma ltb_trans (a b c : float) :
  (a <? b)%float = true -> (b <? c)%float = true -> (a <? c)%float = true.
Proof. rewrite !FloatAxioms.ltb_spec. apply SpecFloatOrder.SFltb_trans. Qed.

Lemma ltb_eqb (a b : float) : (a <? b)%float = true -> (a =? b)%float = false.
Proof. rewrite FloatAxioms.ltb_spec, FloatAxioms.eqb_spec. apply SpecFloatOrder.SFltb_SFeqb. Qed.

Lemma eqb_sym (a b : float) : (a =? b)%float = (b =? a)%float.
Proof. rewrite !FloatAxioms.eqb_spec. apply SpecFloatOrder.SFeqb_sym. Qed.

Lemma ltb_asym (a b : float) : (a <? b)%float = true -> (b <? a)%float = false.
Proof. rewrite !FloatAxioms.ltb_spec. apply SpecFloatOrder.SFltb_asym. Qed.

Lemma number_eqb (a : float) :
  SampleTable.number a = true <-> (a =? a)%float = true.
Proof.
  unfold SampleTable.number, PrimFloat.is_nan.
  rewrite negb_involutive. reflexivity.
Qed.

Lemma total (a b : float) :
  SampleTable.number a = true -> SampleTable.number b = true ->
  (a <? b)%float = true \/ (a =? b)%float = true \/ (b <? a)%float = true.
Proof.
  rewrite !number_eqb, !FloatAxioms.ltb_spec, !FloatAxioms.eqb_spec.
  apply SpecFloatOrder.SFcompare_total.
Qed.

End DoubleFacts.

(** ** The sample tables *)

Module SampleTableFacts.
Import SampleTable.

Section Facts.

Variable tokenize : string -> string -> list string.
Variable toDouble : string -> option float.
Variable entry : Type.
Variable key : entry -> float.
Variable make : float -> float -> entry.

Local Abbreviation numbers := (Forall (fun e : entry => number (key e) = true)).

Lemma exists_false (c : list entry) (k : float) :
  exists_ key c k = false <-> Forall (fun e => (key e =? k)%float = false) c.
Proof.
  induction c as [ | e c IH]; simpl.
  - split; intros; [ constructor | reflexivity ].
  - destruct (key e =? k)%float eqn:E.
    + split; [ discriminate | intros H; inversion H; congruence ].
    + rewrite IH. split; intros H; [ constructor; assumption | inversion H; assumption ].
Qed.

Lemma Forall_insert (P : entry -> Prop) (x : entry) (l : list entry) :
  P x -> Forall P l -> Forall P (insert key x l).
Proof.
  intros Hx Hl. induction Hl as [ | y l Hy Hl IH]; simpl.
  - constructor; [ exact Hx | constructor ].
  - destruct (compare_asc key x y); repeat constructor; assumption.
Qed.

(** An entry that no entry of the container is greater than goes last. *)
Lemma insert_last (x : entry) (l : list entry) :
  Forall (fun y => (key x <? key y)%float = false) l ->
  insert key x l = l ++ [x].
Proof.
  induction 1 as [ | y l Hy Hl IH]; simpl; [ reflexivity | ].
  unfold compare_asc. rewrite Hy, IH. reflexivity.
Qed.

Lemma ascending_snoc (l : list entry) (x : entry) :
  ascending key (l ++ [x]) ->
  ascending key l /\ Forall (fun y => (key y <? key x)%float = true) l.
Proof.
  unfold ascending. induction l as [ | y l IH]; simpl; intros H.
  - split; constructor.
  - inversion H as [ | ? ? Hs Hf]; subst. destruct (IH Hs) as [Hl Hx].
    apply Forall_app in Hf as [Hf Hfx]. split.
    + constructor; assumption.
    + constructor; [ inversion Hfx; assumption | exact Hx ].
Qed.

(** Sorting a container that is in ascending order leaves it as it is. *)
Lemma sort_asc_ascending (l : list entry) :
  ascending key l -> sort_asc key l = l.
Proof.
  induction l as [ | x l IH] using rev_ind; intros H; [ reflexivity | ].
  apply ascending_snoc in H as [Hl Hx].
  unfold sort_asc in *. rewrite fold_left_app. simpl. rewrite (IH Hl).
  apply insert_last. eapply Forall_impl; [ | exact Hx ].
  intros y Hy. apply DoubleFacts.ltb_asym, Hy.
Qed.

(** A new key that is a number and equals no key of an ascending container
    of numbers finds its place. *)
Lemma insert_ascending (x : entry) (l : list entry) :
  number (key x) = true -> numbers l ->
  Forall (fun y => (key y =? key x)%float = false) l ->
  ascending key l -> ascending key (insert key x l).
Proof.
  unfold ascending. intros Hx Hn Hd Hs.
  induction Hs as [ | y l Hs IH Hf]; simpl.
  - constructor; constructor.
  - inversion Hn as [ | ? ? Hy Hn']; subst.
    inversion Hd as [ | ? ? Hyx Hd']; subst.
    unfold compare_asc. destruct (key x <? key y)%float eqn:E.
    + constructor; [ constructor; assumption | ].
      constructor; [ exact E | ].
      eapply Forall_impl; [ | exact Hf ]. intros z Hz.
      exact (DoubleFacts.ltb_trans _ _ _ E Hz).
    + constructor; [ apply IH; assumption | ].
      apply Forall_insert; [ | exact Hf ].
      destruct (DoubleFacts.total _ _ Hy Hx) as [H | [H | H]];
        [ exact H | congruence | congruence ].
Qed.

Lemma ascending_no_equal_keys (c : list entry) :
  ascending key c -> no_equal_keys key c.
Proof.
  unfold ascending, no_equal_keys. induction 1 as [ | x l Hs IH Hf].
  - constructor.
  - constructor; [ | exact IH ].
    eapply Forall_impl; [ | exact Hf ]. intros y Hy.
    apply DoubleFacts.ltb_eqb, Hy.
Qed.

Lemma table_ok_nil : table_ok key [].
Proof. split; constructor. Qed.

Lemma addSample_present (c : list entry) (data : entry) :
  ascending key c -> exists_ key c (key data) = true ->
  addSample key c data = c.
Proof.
  intros Hc He. unfold addSample. rewrite He. simpl.
  apply sort_asc_ascending, Hc.
Qed.

Lemma addSample_new (c : list entry) (data : entry) :
  ascending key c -> exists_ key c (key data) = false ->
  addSample key c data = insert key data c.
Proof.
  intros Hc He. unfold addSample. rewrite He. simpl.
  unfold sort_asc. rewrite fold_left_app. simpl.
  fold (sort_asc key c). rewrite (sort_asc_ascending _ Hc). reflexivity.
Qed.

Lemma addSample_ok (c : list entry) (data : entry) :
  number (key data) = true -> table_ok key c -> table_ok key (addSample key c data).
Proof.
  intros Hd [Hc Hn]. destruct (exists_ key c (key data)) eqn:He.
  - rewrite (addSample_present _ _ Hc He). split; assumption.
  - rewrite (addSample_new _ _ Hc He). split.
    + apply insert_ascending; try assumption. apply exists_false, He.
    + apply Forall_insert; assumption.
Qed.

(** A valid input is read to its end: [parse_items] does not throw on the
    items that [can_parse_items] accepts, and keeps the invariant when the
    keys it reads are numbers. *)
Lemma parse_items_done (st0 : list string) (c : list entry) :
  can_parse_items tokenize toDouble st0 = true ->
  exists c', parse_items tokenize toDouble key make c st0 = Done c'.
Proof.
  revert c. induction st0 as [ | s rest IH]; simpl; intros c H.
  - exists c; reflexivity.
  - destruct (tokenize s ",") as [ | s0 [ | s1 [ | s2 st1]]]; simpl in *;
      try discriminate.
    destruct (toDouble s0); [ | discriminate ].
    destruct (toDouble s1); [ | discriminate ].
    apply IH, H.
Qed.

Lemma parse_items_ok (st0 : list string) (c c' : list entry) :
  forallb (item_is_number tokenize toDouble) st0 = true ->
  parse_items tokenize toDouble key make c st0 = Done c' ->
  (forall a b, key (make a b) = a) ->
  table_ok key c -> table_ok key c'.
Proof.
  intros Hn Hp Hk. revert c Hn Hp.
  induction st0 as [ | s rest IH]; simpl; intros c Hn Hp Hc.
  - injection Hp as <-. exact Hc.
  - apply andb_true_iff in Hn as [Hs Hn]. unfold item_is_number in Hs.
    destruct (tokenize s ",") as [ | s0 [ | s1 st1]]; simpl in *;
      try discriminate.
    destruct (toDouble s0) as [vec | ]; [ | discriminate ].
    destruct (toDouble s1) as [ang | ]; [ | discriminate ].
    apply (IH _ Hn Hp). apply addSample_ok; [ rewrite Hk; exact Hs | exact Hc ].
Qed.

Lemma parse_invalid (c : list entry) (seq : string) :
  can_parse tokenize toDouble seq = false \/ seq = ""%string ->
  parse tokenize toDouble key make c seq = Done c.
Proof.
  unfold parse. intros [H | H].
  - rewrite H. reflexivity.
  - subst seq. simpl. rewrite orb_true_r. reflexivity.
Qed.

Lemma parse_valid (c : list entry) (seq : string) :
  can_parse tokenize toDouble seq = true -> seq <> ""%string ->
  parse tokenize toDouble key make c seq
  = parse_items tokenize toDouble key make [] (tokenize seq ";").
Proof.
  unfold parse. intros H Hs. rewrite H.
  destruct seq; [ congruence | reflexivity ].
Qed.

Lemma parse_done (c : list entry) (seq : string) :
  exists c', parse tokenize toDouble key make c seq = Done c'.
Proof.
  unfold parse. destruct (can_parse tokenize toDouble seq) eqn:H; simpl.
  - destruct (empty seq); [ exists c; reflexivity | ].
    apply parse_items_done, H.
  - exists c; reflexivity.
Qed.

Lemma parse_ok (c c' : list entry) (seq : string) :
  forallb (item_is_number tokenize toDouble) (tokenize seq ";") = true ->
  parse tokenize toDouble key make c seq = Done c' ->
  (forall a b, key (make a b) = a) ->
  table_ok key c -> table_ok key c'.
Proof.
  unfold parse. intros Hn Hp Hk Hc.
  destruct (negb (can_parse tokenize toDouble seq) || empty seq).
  - injection Hp as <-. exact Hc.
  - exact (parse_items_ok _ _ _ Hn Hp Hk table_ok_nil).
Qed.

(** Every sequence of calls that brings numbers runs to its end and leaves
    a table in ascending order. *)
Lemma run_ok (calls : list (call entry)) (c : list entry) :
  (forall a b, key (make a b) = a) ->
  forallb (call_of_numbers tokenize toDouble key) calls = true ->
  table_ok key c ->
  exists c', run tokenize toDouble key make c calls = Done c' /\ table_ok key c'.
Proof.
  intros Hk. revert c. induction calls as [ | cl calls IH]; simpl; intros c Hn Hc.
  - exists c; split; [ reflexivity | exact Hc ].
  - apply andb_true_iff in Hn as [Hcl Hn]. destruct cl as [data | seq]; simpl in Hcl.
    + apply (IH _ Hn). apply addSample_ok; assumption.
    + destruct (parse_done c seq) as [c1 Hp]. rewrite Hp.
      apply (IH _ Hn). exact (parse_ok _ _ _ Hcl Hp Hk Hc).
Qed.

End Facts.
End SampleTableFacts.

(** ** The claims on the tables *)

Module TableClaims.

Import SampleTable.
Import AngleRefs ErrProbRefs ExampleCalls.

(** C9, for keys that are numbers: whatever calls of [addSample] and
    [parse] a table receives from its construction on, if no key they bring
    is NaN then every call returns, the table is in strictly ascending order
    of its key, no two entries have equal keys, and [addSample] with a key
    that is present leaves the table as it is.  This holds of [AngleRefs]
    (key [Velocity]) and of [ErrProbRefs] (key [Reference]). *)
Theorem tables_ascending_for_numbers
    (tokenize : string -> string -> list string)
    (toDouble : string -> option float)
    (callsA : list (call AngleRef)) (callsE : list (call ErrProbRef)) :
  forallb (AngleRefs.call_of_numbers tokenize toDouble) callsA = true ->
  forallb (ErrProbRefs.call_of_numbers tokenize toDouble) callsE = true ->
  (exists c,
      AngleRefs.run tokenize toDouble [] callsA = Done c /\
      AngleRefs.ascending c /\ AngleRefs.no_equal_keys c /\
      forall data, AngleRefs.exists_ c (Velocity data) = true ->
                   AngleRefs.addSample c data = c) /\
  (exists c,
      ErrProbRefs.run tokenize toDouble [] callsE = Done c /\
      ErrProbRefs.ascending c /\ ErrProbRefs.no_equal_keys c /\
      forall data, ErrProbRefs.exists_ c (Reference data) = true ->
                   ErrProbRefs.addSample c data = c).
Proof.
  intros HA HE. split.
  - destruct (SampleTableFacts.run_ok tokenize toDouble AngleRef Velocity
                mkAngleRef callsA [] (fun _ _ => eq_refl) HA
                (SampleTableFacts.table_ok_nil _ _)) as [c [Hr [Hc _]]].
    exists c. split; [ exact Hr | ]. split; [ exact Hc | ].
    split; [ apply SampleTableFacts.ascending_no_equal_keys, Hc | ].
    intros data. apply SampleTableFacts.addSample_present, Hc.
  - destruct (SampleTableFacts.run_ok tokenize toDouble ErrProbRef Reference
                mkErrProbRef callsE [] (fun _ _ => eq_refl) HE
                (SampleTableFacts.table_ok_nil _ _)) as [c [Hr [Hc _]]].
    exists c. split; [ exact Hr | ]. split; [ exact Hc | ].
    split; [ apply SampleTableFacts.ascending_no_equal_keys, Hc | ].
    intros data. apply SampleTableFacts.addSample_present, Hc.
Qed.

Example angle_calls_run :
  AngleRefs.run Example.tokenize Example.toDouble [] angle_calls
  = Done [ mkAngleRef 10 1; mkAngleRef 15 3; mkAngleRef 20 2 ].
Proof. vm_compute. reflexivity. Qed.

Example errprob_calls_run :
  ErrProbRefs.run Example.tokenize Example.toDouble [] errprob_calls
  = Done [ mkErrProbRef 3 0; mkErrProbRef 7 0 ].
Proof. vm_compute. reflexivity. Qed.

Lemma tables_ascending_for_numbers_witness :
  (exists c,
      AngleRefs.run Example.tokenize Example.toDouble [] angle_calls = Done c /\
      AngleRefs.ascending c /\ AngleRefs.no_equal_keys c /\
      forall data, AngleRefs.exists_ c (Velocity data) = true ->
                   AngleRefs.addSample c data = c) /\
  (exists c,
      ErrProbRefs.run Example.tokenize Example.toDouble [] errprob_calls = Done c /\
      ErrProbRefs.ascending c /\ ErrProbRefs.no_equal_keys c /\
      forall data, ErrProbRefs.exists_ c (Reference data) = true ->
                   ErrProbRefs.addSample c data = c).
Proof.
  apply (tables_ascending_for_numbers Example.tokenize Example.toDouble
           angle_calls errprob_calls); vm_compute; reflexivity.
Defined.

(** C9, as the claim states it, fails: two samples whose key is NaN are both
    kept ([exists] compares with [==], which NaN never satisfies), and the
    table they leave is not in strictly ascending order. *)
Lemma nan_keys_not_ascending :
  AngleRefs.run Example.tokenize Example.toDouble []
    [ AddSample (mkAngleRef PrimFloat.nan 1); AddSample (mkAngleRef PrimFloat.nan 2) ]
  = Done [ mkAngleRef PrimFloat.nan 1; mkAngleRef PrimFloat.nan 2 ] /\
  ~ AngleRefs.ascending [ mkAngleRef PrimFloat.nan 1; mkAngleRef PrimFloat.nan 2 ].
Proof.
  split; [ vm_compute; reflexivity | ].
  intros H. inversion H as [ | ? ? _ Hf]; subst.
  inversion Hf as [ | ? ? Hlt _]; subst.
  vm_compute in Hlt. discriminate.
Qed.

(** With a number reader that accepts [nan], [parse] brings NaN keys to the
    table as well. *)
Example parse_nan_keys :
  AngleRefs.parse Example.tokenize Example.toDouble [ mkAngleRef 5 0 ] "nan,1;nan,2"
  = Done [ mkAngleRef PrimFloat.nan 1; mkAngleRef PrimFloat.nan 2 ].
Proof. vm_compute. reflexivity. Qed.

(** C10: [parse] leaves the table exactly as it was when [can_parse] rejects
    the string and when the string is empty; only for a string that
    validates as a whole does it clear the table and fill it again, and the
    entries it then leaves do not depend on the former ones.  This holds of
    [AngleRefs] and of [ErrProbRefs]. *)
Theorem parse_atomic
    (tokenize : string -> string -> list string)
    (toDouble : string -> option float)
    (cA : list AngleRef) (cE : list ErrProbRef) (seq : string) :
  (AngleRefs.can_parse tokenize toDouble seq = false \/ seq = ""%string ->
   AngleRefs.parse tokenize toDouble cA seq = Done cA) /\
  (ErrProbRefs.can_parse tokenize toDouble seq = false \/ seq = ""%string ->
   ErrProbRefs.parse tokenize toDouble cE seq = Done cE) /\
  (AngleRefs.parse tokenize toDouble cA seq <> Done cA ->
   AngleRefs.can_parse tokenize toDouble seq = true /\ seq <> ""%string) /\
  (ErrProbRefs.parse tokenize toDouble cE seq <> Done cE ->
   ErrProbRefs.can_parse tokenize toDouble seq = true /\ seq <> ""%string) /\
  (AngleRefs.can_parse tokenize toDouble seq = true -> seq <> ""%string ->
   exists c, AngleRefs.parse tokenize toDouble cA seq = Done c /\
             AngleRefs.parse tokenize toDouble [] seq = Done c) /\
  (ErrProbRefs.can_parse tokenize toDouble seq = true -> seq <> ""%string ->
   exists c, ErrProbRefs.parse tokenize toDouble cE seq = Done c /\
             ErrProbRefs.parse tokenize toDouble [] seq = Done c).
Proof.
  assert (Hvalid : forall (entry : Type) key make (c : list entry),
             SampleTable.parse tokenize toDouble key make c seq <> Done c ->
             SampleTable.can_parse tokenize toDouble seq = true /\ seq <> ""%string).
  { intros entry key make c H.
    destruct (SampleTable.can_parse tokenize toDouble seq) eqn:E.
    - split; [ reflexivity | ]. intros ->. apply H.
      apply SampleTableFacts.parse_invalid. right; reflexivity.
    - exfalso. apply H. apply SampleTableFacts.parse_invalid. left; exact E. }
  assert (Hfill : forall (entry : Type) key make (c : list entry),
             SampleTable.can_parse tokenize toDouble seq = true -> seq <> ""%string ->
             exists c', SampleTable.parse tokenize toDouble key make c seq = Done c' /\
                        SampleTable.parse tokenize toDouble key make [] seq = Done c').
  { intros entry key make c H Hs.
    destruct (SampleTableFacts.parse_done tokenize toDouble entry key make
                c seq) as [c' Hc'].
    exists c'. split; [ exact Hc' | ].
    rewrite SampleTableFacts.parse_valid in * by assumption. exact Hc'. }
  repeat split.
  - apply SampleTableFacts.parse_invalid.
  - apply SampleTableFacts.parse_invalid.
  - apply (Hvalid _ _ _ _ H).
  - apply (Hvalid _ _ _ _ H).
  - apply (Hvalid _ _ _ _ H).
  - apply (Hvalid _ _ _ _ H).
  - apply Hfill.
  - apply Hfill.
Qed.

Lemma parse_atomic_witness :
  AngleRefs.parse Example.tokenize Example.toDouble [ mkAngleRef 1 2 ] "3,x;4,5"
  = Done [ mkAngleRef 1 2 ] /\
  AngleRefs.parse Example.tokenize Example.toDouble [ mkAngleRef 1 2 ] ""
  = Done [ mkAngleRef 1 2 ] /\
  ErrProbRefs.parse Example.tokenize Example.toDouble [ mkErrProbRef 1 2 ] "3,4,5"
  = Done [ mkErrProbRef 1 2 ].
Proof.
  split; [ | split ].
  - apply (proj1 (parse_atomic Example.tokenize Example.toDouble
                    [ mkAngleRef 1 2 ] [] "3,x;4,5")).
    left. vm_compute. reflexivity.
  - apply (proj1 (parse_atomic Example.tokenize Example.toDouble
                    [ mkAngleRef 1 2 ] [] "")).
    right. reflexivity.
  - apply (proj1 (proj2 (parse_atomic Example.tokenize Example.toDouble
                    [] [ mkErrProbRef 1 2 ] "3,4,5"))).
    left. vm_compute. reflexivity.
Defined.

End TableClaims.

(** * Further properties of the code *)

(** ** setViewportFrom, continued *)

Module PerspectiveMore.

Import GUIOSGPerspectiveChanger Framing PerspectiveAccessors.

(** X1: [setViewportFrom] moves the camera in the horizontal plane only:
    the height [getZPos()], the up vector, the home pose and the projection
    are the same before and after, in both branches. *)
Theorem setViewportFrom_keeps_height (xPos yPos zPos : R) (v : View) :
  let v' := setViewportFrom xPos yPos zPos v in
  getZPos v' = getZPos v /\
  up (pose v') = up (pose v) /\
  homePose v' = homePose v /\
  projection v' = projection v.
Proof.
  intros v'. subst v'. unfold getZPos, setViewportFrom, getLookAt.
  destruct (birdView (lookAt (pose v) -v position (pose v))
                     (position (pose v))); simpl; repeat split; ring.
Qed.

End PerspectiveMore.

(** ** centerTo and setViewportFrom in double precision, continued *)

Module IEEEMore.

Import IEEE IEEE.GUIOSGPerspectiveChanger Exact ExactFacts IEEEFraming.
Import IEEEExamples.
Import QArith Qpower Lqa.
Local Open Scope Q_scope.

(** X21: in doubles, NaN and infinities included, a call of
    [setViewportFrom] that takes the shifting branch leaves a pose on which
    the bird view condition is false again: the next call shifts, too. *)
Theorem setViewportFrom_shift_branch_stable (x y z : float) (v : View) :
  birdView (Vec3d.sub (lookAt (pose v)) (position (pose v)))
           (position (pose v)) = false ->
  let p' := pose (setViewportFrom x y z v) in
  birdView (Vec3d.sub (lookAt p') (position p')) (position p') = false.
Proof.
  intros Hb p'. subst p'.
  rewrite (IEEEViewport.setViewportFrom_shift_branch _ _ _ _ Hb).
  cbn [position lookAt].
  rewrite IEEEViewport.birdView_after_shift. exact Hb.
Qed.

Lemma setViewportFrom_shift_branch_stable_witness :
  let p' := pose (setViewportFrom 0 1 0 steep_view) in
  birdView (Vec3d.sub (lookAt p') (position p')) (position p') = false.
Proof.
  apply (setViewportFrom_shift_branch_stable 0 1 0 steep_view).
  vm_compute. reflexivity.
Defined.

(** X22: in doubles, whenever the test [dir * Z_AXIS != 0] of [centerTo]
    succeeds, the helper direction is the fixed axis (-1, -0, -0), of
    length 1; the test also succeeds when the product is NaN, as for the
    direction (infinity, 0, 0), whose vertical component is zero. *)
Theorem orthoDir_fixed_axis_in_doubles (dir : Vec3d.t) :
  (Vec3d.dot dir Vec3d.Z_AXIS =? 0)%float = false ->
  orthoDir dir = Vec3d.mk (-1)%float (-0)%float (-0)%float /\
  Vec3d.length (orthoDir dir) = 1%float.
Proof.
  intros H. unfold orthoDir. rewrite H. cbn [negb].
  split; vm_compute; reflexivity.
Qed.

Lemma orthoDir_fixed_axis_in_doubles_witness :
  let dir := Vec3d.mk infinity 0 0 in
  orthoDir dir = Vec3d.mk (-1)%float (-0)%float (-0)%float /\
  Vec3d.length (orthoDir dir) = 1%float.
Proof.
  apply (orthoDir_fixed_axis_in_doubles (Vec3d.mk infinity 0 0)).
  vm_compute. reflexivity.
Defined.

(** X23: of two calls of [setViewportFrom] in a row the last one decides:
    when no operation of the calls rounds, [setViewportFrom x1 y1] followed
    by [setViewportFrom x2 y2] leaves the position, the look-at point and
    the up vector that [setViewportFrom x2 y2] alone leaves. *)
Theorem setViewportFrom_last_call_decides_when_exact
    (x1 y1 z1 x2 y2 z2 z3 : float) (v : View) :
  call_exact x1 y1 v = true ->
  call_exact x2 y2 (setViewportFrom x1 y1 z1 v) = true ->
  call_exact x2 y2 v = true ->
  let p2 := pose (setViewportFrom x2 y2 z2 (setViewportFrom x1 y1 z1 v)) in
  let p := pose (setViewportFrom x2 y2 z3 v) in
  qx (position p2) == qx (position p) /\
  qy (position p2) == qy (position p) /\
  qz (position p2) == qz (position p) /\
  qx (lookAt p2) == qx (lookAt p) /\
  qy (lookAt p2) == qy (lookAt p) /\
  qz (lookAt p2) == qz (lookAt p) /\
  up p2 = up p.
Proof.
  intros H1 H2 H3 p2 p.
  set (v1 := setViewportFrom x1 y1 z1 v) in *.
  pose (p1 := pose v1).
  assert (Hup1 : up p2 = up (pose v)).
  { subst p2 v1. unfold setViewportFrom at 1.
    destruct (birdView _ _); unfold setViewportFrom;
      destruct (birdView _ _); reflexivity. }
  assert (Hup : up p2 = up p).
  { rewrite Hup1. subst p. unfold setViewportFrom.
    destruct (birdView _ _); reflexivity. }
  unfold call_exact in H1, H2, H3. cbv zeta in H1, H2, H3.
  destruct (birdView (Vec3d.sub (lookAt (pose v)) (position (pose v)))
                     (position (pose v))) eqn:Hb.
  - (* the bird view from the start *)
    assert (E1 : pose v1
                 = mkPose (Vec3d.mk x1 y1 (Vec3d.z (position (pose v))))
                          (Vec3d.mk (x1 - 0)%float (y1 - 0)%float
                             (Vec3d.z (position (pose v)) - 1)%float)
                          (up (pose v)))
      by (subst v1; apply (IEEEViewport.setViewportFrom_bird_branch _ _ _ _ Hb)).
    subst p. rewrite (IEEEViewport.setViewportFrom_bird_branch _ _ _ _ Hb).
    destruct (birdView (Vec3d.sub (lookAt (pose v1)) (position (pose v1)))
                       (position (pose v1))) eqn:Hb1.
    + subst p2. rewrite (IEEEViewport.setViewportFrom_bird_branch _ _ _ _ Hb1).
      rewrite E1. cbn [position lookAt up Vec3d.x Vec3d.y Vec3d.z].
      repeat split; reflexivity.
    + apply andb_true_iff in H2 as [Hg2 Ht2].
      destruct (IEEEViewport.shifted_pose_values x2 y2 z2 v1 Hb1 Hg2 Ht2)
        as (Hdz & Hpx & Hpy & Hpz & Hlx & Hly & Hlz).
      cbv zeta in Hdz, Hpx, Hpy, Hpz, Hlx, Hly, Hlz. fold p2 in Hpx, Hpy, Hpz, Hlx, Hly, Hlz.
      rewrite E1 in Hdz, Hpx, Hpy, Hpz, Hlx, Hly, Hlz.
      unfold qx, qy, qz in *.
      cbn [position lookAt up Vec3d.x Vec3d.y Vec3d.z] in *.
      rewrite (proj2 (sub_zero_value x1)) in Hpx, Hlx.
      rewrite (proj2 (sub_zero_value y1)) in Hpy, Hly.
      rewrite (proj2 (sub_zero_value x2)), (proj2 (sub_zero_value y2)).
      repeat split; try exact Hup1; try assumption.
      * rewrite Hpx. ring.
      * rewrite Hpy. ring.
      * rewrite Hlx. ring.
      * rewrite Hly. ring.
  - (* the shift from the start *)
    apply andb_true_iff in H1 as [Hg1 Ht1].
    apply andb_true_iff in H3 as [Hg3 Ht3].
    assert (Hb1 : birdView (Vec3d.sub (lookAt (pose v1)) (position (pose v1)))
                           (position (pose v1)) = false).
    { subst v1. rewrite (IEEEViewport.setViewportFrom_shift_branch _ _ _ _ Hb).
      cbn [position lookAt]. rewrite IEEEViewport.birdView_after_shift.
      exact Hb. }
    rewrite Hb1 in H2. apply andb_true_iff in H2 as [Hg2 Ht2].
    destruct (IEEEViewport.shifted_pose_values x1 y1 z1 v Hb Hg1 Ht1)
      as (Hdz0 & Hpx0 & Hpy0 & Hpz0 & Hlx0 & Hly0 & Hlz0).
    destruct (IEEEViewport.shifted_pose_values x2 y2 z3 v Hb Hg3 Ht3)
      as (_ & Hpx & Hpy & Hpz & Hlx & Hly & Hlz).
    destruct (IEEEViewport.shifted_pose_values x2 y2 z2 v1 Hb1 Hg2 Ht2)
      as (_ & Hpx2 & Hpy2 & Hpz2 & Hlx2 & Hly2 & Hlz2).
    cbv zeta in Hdz0, Hpx0, Hpy0, Hpz0, Hlx0, Hly0, Hlz0.
    cbv zeta in Hpx, Hpy, Hpz, Hlx, Hly, Hlz.
    cbv zeta in Hpx2, Hpy2, Hpz2, Hlx2, Hly2, Hlz2.
    fold v1 in Hpx0, Hpy0, Hpz0, Hlx0, Hly0, Hlz0.
    fold p in Hpx, Hpy, Hpz, Hlx, Hly, Hlz.
    fold p2 in Hpx2, Hpy2, Hpz2, Hlx2, Hly2, Hlz2.
    repeat split; try exact Hup.
    + rewrite Hpx2, Hpx. rewrite Hpx0, Hlx0, Hpz0, Hlz0. field. exact Hdz0.
    + rewrite Hpy2, Hpy. rewrite Hpy0, Hly0, Hpz0, Hlz0. field. exact Hdz0.
    + rewrite Hpz2, Hpz. exact Hpz0.
    + rewrite Hlx2, Hlx. rewrite Hpx0, Hlx0, Hpz0, Hlz0. field. exact Hdz0.
    + rewrite Hly2, Hly. rewrite Hpy0, Hly0, Hpz0, Hlz0. field. exact Hdz0.
    + rewrite Hlz2, Hlz. exact Hlz0.
Qed.

Lemma setViewportFrom_last_call_decides_when_exact_witness :
  let p2 := pose (setViewportFrom 5 7 0 (setViewportFrom 1 2 0 integer_view)) in
  let p := pose (setViewportFrom 5 7 0 integer_view) in
  qx (position p2) == qx (position p) /\
  qy (position p2) == qy (position p) /\
  qz (position p2) == qz (position p) /\
  qx (lookAt p2) == qx (lookAt p) /\
  qy (lookAt p2) == qy (lookAt p) /\
  qz (lookAt p2) == qz (lookAt p) /\
  up p2 = up p.
Proof.
  apply (setViewportFrom_last_call_decides_when_exact 1 2 0 5 7 0 0 integer_view);
    vm_compute; reflexivity.
Defined.

End IEEEMore.

(** ** Comparing doubles: NaN *)

Module DoubleNaN.

Lemma SFeqb_refl_false (x : spec_float) : SFeqb x x = false -> x = S754_nan.
Proof.
  unfold SFeqb, SFcompare. destruct x as [[] | [] | | [] m e];
    try discriminate; try reflexivity;
    rewrite Z.compare_refl, Pos.compare_cont_refl; discriminate.
Qed.

Lemma Prim2SF_nan (k : float) :
  PrimFloat.is_nan k = true -> Prim2SF k = S754_nan.
Proof.
  unfold PrimFloat.is_nan. rewrite negb_true_iff, FloatAxioms.eqb_spec.
  apply SFeqb_refl_false.
Qed.

Lemma eqb_nan_r (x k : float) :
  PrimFloat.is_nan k = true -> (x =? k)%float = false.
Proof.
  intros H. rewrite FloatAxioms.eqb_spec, (Prim2SF_nan k H).
  unfold SFeqb, SFcompare. destruct (Prim2SF x); reflexivity.
Qed.

Lemma leb_nan_l (v k : float) :
  PrimFloat.is_nan v = true -> (v <=? k)%float = false.
Proof.
  intros H. rewrite FloatAxioms.leb_spec, (Prim2SF_nan v H). reflexivity.
Qed.

End DoubleNaN.

(** ** The sample tables, continued *)

Module SampleTableMore.
Import SampleTable.

Section More.

Variable tokenize : string -> string -> list string.
Variable toDouble : string -> option float.
Variable entry : Type.
Variable key : entry -> float.
Variable make : float -> float -> entry.

Lemma exists_true_iff (c : list entry) (k : float) :
  exists_ key c k = true <-> exists e, In e c /\ (key e =? k)%float = true.
Proof.
  induction c as [ | x c IH]; simpl.
  - split; [ discriminate | intros [e [[] _]] ].
  - destruct (key x =? k)%float eqn:E.
    + split; [ intros _; exists x; auto | reflexivity ].
    + rewrite IH. split.
      * intros [e [Hin He]]. exists e; auto.
      * intros [e [[-> | Hin] He]]; [ congruence | exists e; auto ].
Qed.

Lemma exists_Permutation (c c' : list entry) (k : float) :
  Permutation c c' -> exists_ key c k = exists_ key c' k.
Proof.
  intros Hp.
  destruct (exists_ key c k) eqn:E, (exists_ key c' k) eqn:E'; try reflexivity.
  - apply exists_true_iff in E as [e [Hin He]].
    assert (exists_ key c' k = true) as H'
      by (apply exists_true_iff; exists e; split;
          [ eapply Permutation_in; eassumption | exact He ]).
    congruence.
  - apply exists_true_iff in E' as [e [Hin He]].
    assert (exists_ key c k = true) as H'
      by (apply exists_true_iff; exists e; split;
          [ eapply Permutation_in; [ apply Permutation_sym | ]; eassumption
          | exact He ]).
    congruence.
Qed.

Lemma insert_Permutation (x : entry) (l : list entry) :
  Permutation (insert key x l) (x :: l).
Proof.
  induction l as [ | y l IH]; simpl; [ reflexivity | ].
  destruct (compare_asc key x y); [ reflexivity | ].
  rewrite IH. apply perm_swap.
Qed.

Lemma sort_asc_Permutation (c : list entry) : Permutation (sort_asc key c) c.
Proof.
  unfold sort_asc.
  assert (H : forall acc, Permutation
                 (fold_left (fun sorted x => insert key x sorted) c acc)
                 (c ++ acc)).
  { induction c as [ | x c IH]; intros acc; simpl; [ reflexivity | ].
    rewrite IH, insert_Permutation. symmetry. apply Permutation_middle. }
  rewrite H, app_nil_r. reflexivity.
Qed.

Lemma addSample_Permutation (c : list entry) (data : entry) :
  Permutation (addSample key c data)
              (if exists_ key c (key data) then c else c ++ [data]).
Proof.
  unfold addSample. destruct (exists_ key c (key data)); simpl;
    apply sort_asc_Permutation.
Qed.

(** X8: [addSample] loses no entry and keeps no copy, for every container
    (in order or not): it holds the former entries, and the new one exactly
    when [exists] did not find its key; its size grows by one at most. *)
Theorem addSample_keeps_entries (c : list entry) (data : entry) :
  Permutation (addSample key c data)
              (if exists_ key c (key data) then c else data :: c) /\
  (List.length c <= List.length (addSample key c data) <= S (List.length c))%nat.
Proof.
  pose proof (addSample_Permutation c data) as H.
  pose proof (Permutation_length H) as Hl.
  destruct (exists_ key c (key data)).
  - split; [ exact H | lia ].
  - rewrite length_app in Hl. simpl in Hl. split; [ | lia ].
    rewrite H. symmetry. apply Permutation_cons_append.
Qed.

(** X9: a sample whose key is a number is found after [addSample], whatever
    the container held before: [exists] answers true for its key. *)
Theorem addSample_then_exists (c : list entry) (data : entry) :
  number (key data) = true ->
  exists_ key (addSample key c data) (key data) = true.
Proof.
  intros Hn. rewrite (exists_Permutation _ _ _ (addSample_Permutation c data)).
  destruct (exists_ key c (key data)) eqn:E; [ exact E | ].
  apply exists_true_iff. exists data. split.
  - apply in_or_app. right. left. reflexivity.
  - apply DoubleFacts.number_eqb, Hn.
Qed.

Lemma exists_nan (c : list entry) (k : float) :
  PrimFloat.is_nan k = true -> exists_ key c k = false.
Proof.
  intros H. apply SampleTableFacts.exists_false.
  apply Forall_forall. intros e _. apply DoubleNaN.eqb_nan_r, H.
Qed.

(** Going to its place keeps a container free of descents. *)
Lemma insert_Sorted (x : entry) (l : list entry) :
  Sorted (fun a b => (key b <? key a)%float = false) l ->
  Sorted (fun a b => (key b <? key a)%float = false) (insert key x l).
Proof.
  induction 1 as [ | y l Hs IH Hh]; simpl.
  - constructor; constructor.
  - unfold compare_asc. destruct (key x <? key y)%float eqn:E.
    + constructor; [ constructor; assumption | ].
      constructor. apply DoubleFacts.ltb_asym, E.
    + constructor; [ exact IH | ].
      destruct Hh as [ | z l Hz]; simpl.
      * constructor. exact E.
      * inversion Hs; subst. unfold compare_asc.
        destruct (key x <? key z)%float; constructor; assumption.
Qed.

(** X10: [addSample] sorts whatever container of numbers it is given, in
    order or not (on numbers [std::sort] is defined): in the container it
    leaves, no entry is followed by an entry with a smaller key. *)
Theorem addSample_sorts (c : list entry) (data : entry) :
  Forall (fun e => number (key e) = true) c -> number (key data) = true ->
  Sorted (fun a b => (key b <? key a)%float = false) (addSample key c data).
Proof.
  intros _ _. unfold addSample.
  set (c' := if negb (exists_ key c (key data)) then c ++ [data] else c).
  unfold sort_asc.
  assert (H : forall acc,
             Sorted (fun a b => (key b <? key a)%float = false) acc ->
             Sorted (fun a b => (key b <? key a)%float = false)
                    (fold_left (fun sorted x => insert key x sorted) c' acc)).
  { induction c' as [ | x l IH]; intros acc Hacc; simpl; [ exact Hacc | ].
    apply IH, insert_Sorted, Hacc. }
  apply H. constructor.
Qed.

(** X11: a key that is NaN is never found, so a sample with such a key is
    added by every [addSample], and is not found afterwards either. *)
Theorem nan_sample_never_found (c : list entry) (data : entry) :
  PrimFloat.is_nan (key data) = true ->
  exists_ key c (key data) = false /\
  exists_ key (addSample key c data) (key data) = false /\
  List.length (addSample key c data) = S (List.length c).
Proof.
  intros H. pose proof (exists_nan c _ H) as Hc.
  split; [ exact Hc | ]. split; [ apply exists_nan, H | ].
  rewrite (Permutation_length (addSample_Permutation c data)), Hc.
  rewrite length_app. simpl. lia.
Qed.

(** Two entries with different keys that are numbers go to their places in
    either order. *)
Lemma insert_insert (a b : entry) (l : list entry) :
  number (key a) = true -> number (key b) = true ->
  (key a =? key b)%float = false ->
  insert key a (insert key b l) = insert key b (insert key a l).
Proof.
  intros Ha Hb Hab.
  assert (Hab' : (key a <? key b)%float = false -> (key b <? key a)%float = true).
  { intros H. destruct (DoubleFacts.total _ _ Ha Hb) as [H' | [H' | H']];
      congruence. }
  induction l as [ | y l IH]; simpl; unfold compare_asc.
  - destruct (key a <? key b)%float eqn:E.
    + rewrite (DoubleFacts.ltb_asym _ _ E). reflexivity.
    + rewrite (Hab' eq_refl). reflexivity.
  - destruct (key b <? key y)%float eqn:Eby, (key a <? key y)%float eqn:Eay;
      simpl; unfold compare_asc; rewrite ?Eby, ?Eay.
    + destruct (key a <? key b)%float eqn:E.
      * rewrite (DoubleFacts.ltb_asym _ _ E). reflexivity.
      * rewrite (Hab' eq_refl). reflexivity.
    + destruct (key a <? key b)%float eqn:E.
      * rewrite (DoubleFacts.ltb_trans _ _ _ E Eby) in Eay. discriminate.
      * reflexivity.
    + destruct (key b <? key a)%float eqn:E.
      * rewrite (DoubleFacts.ltb_trans _ _ _ E Eay) in Eby. discriminate.
      * reflexivity.
    + rewrite IH. reflexivity.
Qed.

Lemma exists_insert_other (a : entry) (l : list entry) (k : float) :
  (key a =? k)%float = false ->
  exists_ key (insert key a l) k = exists_ key l k.
Proof.
  intros H. rewrite (exists_Permutation _ _ _ (insert_Permutation a l)).
  simpl. rewrite H. reflexivity.
Qed.

(** X12: on a table in ascending order, two samples whose keys are numbers
    and differ can be added in either order: the table is the same. *)
Theorem addSample_order_independent (c : list entry) (a b : entry) :
  table_ok key c ->
  number (key a) = true -> number (key b) = true ->
  (key a =? key b)%float = false ->
  addSample key (addSample key c a) b = addSample key (addSample key c b) a.
Proof.
  intros Hc Ha Hb Hab.
  assert (Hba : (key b =? key a)%float = false)
    by (rewrite DoubleFacts.eqb_sym; exact Hab).
  pose proof (SampleTableFacts.addSample_ok _ key c a Ha Hc) as [Hca _].
  pose proof (SampleTableFacts.addSample_ok _ key c b Hb Hc) as [Hcb _].
  destruct Hc as [Hc _].
  destruct (exists_ key c (key a)) eqn:Ea, (exists_ key c (key b)) eqn:Eb.
  - rewrite (SampleTableFacts.addSample_present _ key c a Hc Ea).
    rewrite (SampleTableFacts.addSample_present _ key c b Hc Eb).
    rewrite (SampleTableFacts.addSample_present _ key c a Hc Ea).
    reflexivity.
  - rewrite (SampleTableFacts.addSample_present _ key c a Hc Ea).
    symmetry. apply SampleTableFacts.addSample_present; [ exact Hcb | ].
    rewrite (SampleTableFacts.addSample_new _ key c b Hc Eb).
    rewrite exists_insert_other; assumption.
  - rewrite (SampleTableFacts.addSample_present _ key c b Hc Eb).
    apply SampleTableFacts.addSample_present; [ exact Hca | ].
    rewrite (SampleTableFacts.addSample_new _ key c a Hc Ea).
    rewrite exists_insert_other; assumption.
  - rewrite (SampleTableFacts.addSample_new _ key _ b Hca),
            (SampleTableFacts.addSample_new _ key _ a Hcb).
    + rewrite (SampleTableFacts.addSample_new _ key c a Hc Ea),
              (SampleTableFacts.addSample_new _ key c b Hc Eb).
      symmetry. apply insert_insert; assumption.
    + rewrite (SampleTableFacts.addSample_new _ key c b Hc Eb).
      rewrite exists_insert_other; assumption.
    + rewrite (SampleTableFacts.addSample_new _ key c a Hc Ea).
      rewrite exists_insert_other; assumption.
Qed.

Lemma can_parse_items_iff (st0 : list string) :
  can_parse_items tokenize toDouble st0 = true <->
  Forall (fun s => exists a b, tokenize s "," = [a; b] /\
                               toDouble a <> None /\ toDouble b <> None) st0.
Proof.
  induction st0 as [ | s rest IH]; simpl.
  - split; [ constructor | reflexivity ].
  - split.
    + intros H.
      destruct (tokenize s ",") as [ | a [ | b [ | x st1]]] eqn:E;
        simpl in H; try discriminate.
      destruct (toDouble a) eqn:Ea; [ | discriminate ].
      destruct (toDouble b) eqn:Eb; [ | discriminate ].
      constructor; [ | apply IH, H ].
      exists a, b. rewrite Ea, Eb.
      split; [ exact E | split; discriminate ].
    + intros H. inversion H as [ | ? ? [a [b [E [Ha Hb]]]] Hrest]; subst.
      rewrite E. simpl.
      destruct (toDouble a); [ | contradiction ].
      destruct (toDouble b); [ | contradiction ].
      apply IH, Hrest.
Qed.

(** X13: [can_parse] accepts a string exactly when every item between
    semicolons has two fields between commas and [toDouble] reads both. *)
Theorem can_parse_accepts (seq : string) :
  can_parse tokenize toDouble seq = true <->
  Forall (fun s => exists a b, tokenize s "," = [a; b] /\
                               toDouble a <> None /\ toDouble b <> None)
         (tokenize seq ";").
Proof. unfold can_parse. apply can_parse_items_iff. Qed.

(** X14: [parse] lets no exception of [toDouble] escape and reads no field
    past the end of an item, whatever the string, the tokenizer and the
    number reader; so every sequence of [addSample] and [parse] calls runs
    to its end. *)
Theorem parse_never_throws :
  (forall c seq, exists c', parse tokenize toDouble key make c seq = Done c') /\
  (forall calls c, exists c', run tokenize toDouble key make c calls = Done c').
Proof.
  split; [ apply SampleTableFacts.parse_done | ].
  induction calls as [ | [data | seq] calls IH]; intros c; simpl.
  - exists c; reflexivity.
  - apply IH.
  - destruct (SampleTableFacts.parse_done tokenize toDouble entry key make
                c seq) as [c1 ->].
    apply IH.
Qed.

(** X15: [parse] with the same string a second time changes nothing. *)
Theorem parse_twice (c c1 : list entry) (seq : string) :
  parse tokenize toDouble key make c seq = Done c1 ->
  parse tokenize toDouble key make c1 seq = Done c1.
Proof.
  intros H.
  destruct (can_parse tokenize toDouble seq) eqn:E.
  - destruct seq as [ | ch seq'].
    + rewrite SampleTableFacts.parse_invalid in H by (right; reflexivity).
      injection H as <-.
      apply SampleTableFacts.parse_invalid. right; reflexivity.
    + rewrite SampleTableFacts.parse_valid in * by (assumption || discriminate).
      exact H.
  - rewrite SampleTableFacts.parse_invalid in H by (left; exact E).
    injection H as <-. apply SampleTableFacts.parse_invalid. left; exact E.
Qed.

End More.

Import AngleRefs ErrProbRefs.

Lemma addSample_then_exists_witness :
  AngleRefs.exists_
    (AngleRefs.addSample [ mkAngleRef 20 2; mkAngleRef 10 1 ] (mkAngleRef 15 3))
    15%float = true.
Proof.
  apply (addSample_then_exists AngleRef Velocity
           [ mkAngleRef 20 2; mkAngleRef 10 1 ] (mkAngleRef 15 3)).
  vm_compute. reflexivity.
Defined.

Lemma nan_sample_never_found_witness :
  let c := [ mkErrProbRef PrimFloat.nan 1; mkErrProbRef 5 0 ] in
  let data := mkErrProbRef PrimFloat.nan 7 in
  ErrProbRefs.exists_ c PrimFloat.nan = false /\
  ErrProbRefs.exists_ (ErrProbRefs.addSample c data) PrimFloat.nan = false /\
  List.length (ErrProbRefs.addSample c data) = 3%nat.
Proof.
  apply (nan_sample_never_found ErrProbRef Reference
           [ mkErrProbRef PrimFloat.nan 1; mkErrProbRef 5 0 ]
           (mkErrProbRef PrimFloat.nan 7)).
  vm_compute. reflexivity.
Defined.

Lemma addSample_order_independent_witness :
  let c := [ mkAngleRef 10 1; mkAngleRef 30 3 ] in
  AngleRefs.addSample (AngleRefs.addSample c (mkAngleRef 20 2)) (mkAngleRef 5 0)
  = AngleRefs.addSample (AngleRefs.addSample c (mkAngleRef 5 0)) (mkAngleRef 20 2).
Proof.
  apply (addSample_order_independent AngleRef Velocity
           [ mkAngleRef 10 1; mkAngleRef 30 3 ] (mkAngleRef 20 2) (mkAngleRef 5 0)).
  - split.
    + repeat constructor.
    + repeat constructor.
  - vm_compute. reflexivity.
  - vm_compute. reflexivity.
  - vm_compute. reflexivity.
Defined.

Lemma addSample_sorts_witness :
  Sorted (fun a b => (Velocity b <? Velocity a)%float = false)
         (AngleRefs.addSample
            [ mkAngleRef 30 3; mkAngleRef 10 1; mkAngleRef 30 4 ]
            (mkAngleRef 20 2)).
Proof.
  apply (addSample_sorts AngleRef Velocity
           [ mkAngleRef 30 3; mkAngleRef 10 1; mkAngleRef 30 4 ]
           (mkAngleRef 20 2)).
  - repeat constructor.
  - vm_compute. reflexivity.
Defined.

Lemma parse_twice_witness :
  AngleRefs.parse Example.tokenize Example.toDouble
    [ mkAngleRef 10 1; mkAngleRef 20 2 ] "20,2;10,1"
  = Done [ mkAngleRef 10 1; mkAngleRef 20 2 ].
Proof.
  apply (parse_twice Example.tokenize Example.toDouble AngleRef Velocity
           mkAngleRef [ mkAngleRef 7 7 ] [ mkAngleRef 10 1; mkAngleRef 20 2 ]
           "20,2;10,1").
  vm_compute. reflexivity.
Defined.

End SampleTableMore.

(** ** The interpolated lookup and the output to a string *)

Module SampleQueriesFacts.
Import SampleQueries.

Lemma append_nil_r (s : string) : (s ++ "")%string = s.
Proof. induction s as [ | ch s IH]; simpl; [ | rewrite IH ]; reflexivity. Qed.

Lemma append_assoc (s t u : string) : ((s ++ t) ++ u = s ++ t ++ u)%string.
Proof. induction s as [ | ch s IH]; simpl; [ | rewrite IH ]; reflexivity. Qed.

Section Facts.

Variable entry : Type.
Variable key : entry -> float.
Variable value : entry -> float.
Variable empty_value : float.
Variable double_to_string : float -> string.

Local Abbreviation below v := (Forall (fun e : entry => (v <=? key e)%float = false)).

(** The search stops at the first entry whose key is not below [v]. *)
Lemma first_not_below_stops (pre post : list entry) (hi : entry) (v : float) (i : nat) :
  below v pre -> (v <=? key hi)%float = true ->
  first_not_below key (pre ++ hi :: post) v i = (i + List.length pre)%nat.
Proof.
  intros Hpre Hhi. revert i.
  induction Hpre as [ | e pre He Hpre IH]; intros i; simpl.
  - rewrite Hhi. lia.
  - rewrite He, IH. lia.
Qed.

Lemma first_not_below_end (c : list entry) (v : float) (i : nat) :
  below v c -> first_not_below key c v i = (i + List.length c)%nat.
Proof.
  intros Hc. revert i. induction Hc as [ | e c He Hc IH]; intros i; simpl.
  - lia.
  - rewrite He, IH. lia.
Qed.

Lemma first_not_below_bounds (c : list entry) (v : float) (i : nat) :
  (i <= first_not_below key c v i <= i + List.length c)%nat.
Proof.
  revert i. induction c as [ | e c IH]; intros i; simpl; [ lia | ].
  destruct (v <=? key e)%float; [ lia | ]. specialize (IH (S i)). lia.
Qed.

(** The lookup of a table of two entries or more. *)
Lemma lookup_two (c : list entry) (v : float) :
  (2 <= List.length c)%nat ->
  lookup key value empty_value c v =
  let i := first_not_below key c v 0 in
  if Nat.eqb i 0 then option_map value (at_ c 0)
  else if Nat.eqb i (List.length c) then option_map value (at_ c (i - 1))
  else
    match at_ c (i - 1), at_ c i with
    | Some lo, Some hi =>
        Some (value lo
              + (value hi - value lo) / (key hi - key lo) * (v - key lo))%float
    | _, _ => None
    end.
Proof.
  intros H. unfold lookup. destruct c as [ | e c]; [ simpl in H; lia | ].
  destruct (Nat.eqb_spec (List.length (e :: c)) 1) as [E | _]; [ lia | ].
  reflexivity.
Qed.

(** The lookup reads no entry past the end of the table. *)
Lemma lookup_in_range (c : list entry) (v : float) :
  exists r, lookup key value empty_value c v = Some r.
Proof.
  destruct c as [ | e [ | e' c]].
  - exists empty_value; reflexivity.
  - exists (value e); reflexivity.
  - rewrite lookup_two by (simpl; lia). cbv zeta.
    set (l := e :: e' :: c).
    pose proof (first_not_below_bounds l v 0) as Hb.
    set (i := first_not_below key l v 0) in *.
    destruct (Nat.eqb_spec i 0) as [_ | Hi0]; [ exists (value e); reflexivity | ].
    destruct (Nat.eqb_spec i (List.length l)) as [Hil | Hil].
    + unfold at_. destruct (nth_error l (i - 1)) as [x | ] eqn:E.
      * exists (value x); reflexivity.
      * apply nth_error_None in E. lia.
    + unfold at_. destruct (nth_error l (i - 1)) as [lo | ] eqn:Elo;
        [ | apply nth_error_None in Elo; lia ].
      destruct (nth_error l i) as [hi | ] eqn:Ehi;
        [ | apply nth_error_None in Ehi; lia ].
      eexists; reflexivity.
Qed.

(** X16: a table of one entry gives the value of that entry to every
    argument, and a table gives the value of its first entry to every
    argument that is at or below the first key. *)
Theorem lookup_at_or_below_first (e : entry) (rest : list entry) (v : float) :
  rest = [] \/ (v <=? key e)%float = true ->
  lookup key value empty_value (e :: rest) v = Some (value e).
Proof.
  intros [-> | H]; [ reflexivity | ].
  destruct rest as [ | e' rest]; [ reflexivity | ].
  rewrite lookup_two by (simpl; lia). simpl. rewrite H. reflexivity.
Qed.

(** X17: an argument that no key of the table is at or above, and so every
    argument that is NaN, gets the value of the last entry. *)
Theorem lookup_above_all (c : list entry) (e : entry) (v : float) :
  PrimFloat.is_nan v = true \/ below v (c ++ [e]) ->
  lookup key value empty_value (c ++ [e]) v = Some (value e).
Proof.
  intros H.
  assert (Hb : below v (c ++ [e])).
  { destruct H as [H | H]; [ | exact H ].
    apply Forall_forall. intros x _. apply DoubleNaN.leb_nan_l, H. }
  destruct c as [ | e1 c]; [ reflexivity | ].
  assert (Hlen : List.length ((e1 :: c) ++ [e]) = S (S (List.length c)))
    by (rewrite length_app; simpl; lia).
  rewrite lookup_two by lia. cbv zeta.
  rewrite (first_not_below_end _ _ 0 Hb), Hlen. simpl Nat.eqb.
  rewrite Nat.eqb_refl. unfold at_.
  replace (0 + S (S (List.length c)) - 1)%nat with (List.length (e1 :: c))
    by (simpl; lia).
  rewrite nth_error_app2 by lia. rewrite Nat.sub_diag. reflexivity.
Qed.

(** X18: at an argument inside the table the lookup interpolates between the
    two neighbours that bracket it: the last entry of the leading run of
    keys below the argument and the entry after it. *)
Theorem lookup_between (pre post : list entry) (lo hi : entry) (v : float) :
  below v (pre ++ [lo]) -> (v <=? key hi)%float = true ->
  lookup key value empty_value (pre ++ lo :: hi :: post) v
  = Some (value lo
          + (value hi - value lo) / (key hi - key lo) * (v - key lo))%float.
Proof.
  intros Hb Hhi.
  set (c := pre ++ lo :: hi :: post).
  assert (Hc : c = (pre ++ [lo]) ++ hi :: post)
    by (subst c; rewrite <- app_assoc; reflexivity).
  assert (Hlen : List.length c = (List.length pre + 2 + List.length post)%nat)
    by (subst c; rewrite length_app; simpl; lia).
  assert (Hi : first_not_below key c v 0 = S (List.length pre)).
  { rewrite Hc, (first_not_below_stops _ _ _ _ 0 Hb Hhi), length_app.
    simpl. lia. }
  assert (Hlo : at_ c (List.length pre) = Some lo).
  { unfold at_. subst c. rewrite nth_error_app2 by lia.
    rewrite Nat.sub_diag. reflexivity. }
  assert (Hhi' : at_ c (S (List.length pre)) = Some hi).
  { unfold at_. subst c. rewrite nth_error_app2 by lia.
    replace (S (List.length pre) - List.length pre)%nat with 1%nat by lia.
    reflexivity. }
  rewrite lookup_two by lia. cbv zeta. rewrite Hi.
  replace (S (List.length pre) - 1)%nat with (List.length pre) by lia.
  rewrite Hlo, Hhi'.
  destruct (Nat.eqb_spec (S (List.length pre)) 0) as [E | _]; [ lia | ].
  destruct (Nat.eqb_spec (S (List.length pre)) (List.length c)) as [E | _];
    [ lia | ].
  reflexivity.
Qed.

Lemma to_string_from_concat (c : list entry) (i size : nat) :
  (i + List.length c = size)%nat ->
  to_string_from key value double_to_string c i size
  = String.concat ";" (map (entry_to_string key value double_to_string) c).
Proof.
  revert i. induction c as [ | e c IH]; intros i H; [ reflexivity | ].
  simpl in H. cbn [to_string_from map].
  destruct c as [ | e' c].
  - simpl in *. replace (i =? size - 1)%nat with true
      by (symmetry; apply Nat.eqb_eq; lia).
    apply append_nil_r.
  - replace (i =? size - 1)%nat with false
      by (symmetry; apply Nat.eqb_neq; simpl in H; lia).
    rewrite (IH (S i)) by (simpl in *; lia).
    rewrite append_assoc. reflexivity.
Qed.

(** X19: [to_string] writes the entries in the order of the table, each as
    key, comma, value, with one semicolon between two entries and none at
    the end; the empty table gives the empty string. *)
Theorem to_string_joins (c : list entry) :
  to_string key value double_to_string c
  = String.concat ";" (map (entry_to_string key value double_to_string) c) /\
  to_string key value double_to_string [] = EmptyString.
Proof.
  split; [ | reflexivity ].
  unfold to_string. apply to_string_from_concat. reflexivity.
Qed.

End Facts.

Import AngleRefs ErrProbRefs.

Lemma lookup_at_or_below_first_witness :
  AngleRefsQueries.getAngleDEG
    [ mkAngleRef 10 120; mkAngleRef 50 60 ] 10%float = Some 120%float.
Proof.
  apply (lookup_at_or_below_first AngleRef Velocity Angle 360%float
           (mkAngleRef 10 120) [ mkAngleRef 50 60 ] 10%float).
  right. vm_compute. reflexivity.
Defined.

Lemma lookup_above_all_witness :
  ErrProbRefsQueries.getErrProb
    [ mkErrProbRef 10 0.5; mkErrProbRef 50 0.25 ] PrimFloat.nan = Some 0.25%float.
Proof.
  apply (lookup_above_all ErrProbRef Reference ErrorProbability 0%float
           [ mkErrProbRef 10 0.5 ] (mkErrProbRef 50 0.25) PrimFloat.nan).
  left. vm_compute. reflexivity.
Defined.

Lemma lookup_between_witness :
  AngleRefsQueries.getAngleDEG
    [ mkAngleRef 10 120; mkAngleRef 50 60; mkAngleRef 90 20 ] 30%float
  = Some (120 + (60 - 120) / (50 - 10) * (30 - 10))%float.
Proof.
  apply (lookup_between AngleRef Velocity Angle 360%float
           [] [ mkAngleRef 90 20 ] (mkAngleRef 10 120) (mkAngleRef 50 60) 30%float).
  - repeat constructor.
  - vm_compute. reflexivity.
Defined.

Example getAngleDEG_between :
  AngleRefsQueries.getAngleDEG
    [ mkAngleRef 10 120; mkAngleRef 50 60; mkAngleRef 90 20 ] 30%float
  = Some 90%float.
Proof. vm_compute. reflexivity. Qed.

(** X20: [getAngleDEG] and [getErrProb] read no entry past the end of the
    table: they return a value for every table and every argument; on the
    empty table that is 360 degrees and the probability 0. *)
Theorem lookups_return :
  (forall c v, exists r, AngleRefsQueries.getAngleDEG c v = Some r) /\
  (forall c v, exists r, ErrProbRefsQueries.getErrProb c v = Some r) /\
  (forall v, AngleRefsQueries.getAngleDEG [] v = Some 360%float) /\
  (forall v, ErrProbRefsQueries.getErrProb [] v = Some 0%float).
Proof.
  split; [ intros c v; apply lookup_in_range | ].
  split; [ intros c v; apply lookup_in_range | ].
  split; reflexivity.
Qed.

End SampleQueriesFacts.
